(** * Gomoku room server (server/index.js): board engine, rooms, handlers

    A shallow embedding of the authoritative game server of the
    repository: the pure board functions ([createEmptyBoard],
    [getOppositeTurn], [inBounds], [checkWin], [checkDraw]), the room
    table [rooms] (a JavaScript [Map] from room code to room object),
    the HTTP handler of [POST /api/create-room], and the socket.io
    handlers [join_room], [get_room_state], [place_piece], [reset_game]
    and [disconnect].

    Conventions.
    - JavaScript numbers that the server handles (cell values, turns,
      coordinates, settings) are integers and are modelled in [Z].
      The server does not check that the numbers it receives are
      integers; requests with fractional numbers, or with a board size
      from 2^32 on (where the array constructor raises), are not
      covered by this model.
    - A read that JavaScript answers with [undefined] (an index outside
      an array, a key that was never set) is an [option] whose [None]
      is [undefined]; [null] seats are [None] as well, since the server
      only ever tests them with [!] and [===] against a socket id.
    - A handler that can raise a [TypeError], or whose loop is run on
      fuel, returns an [outcome]. *)

From Stdlib Require Import ZArith List String Bool Lia Ascii.
Import ListNotations.
Local Open Scope string_scope.
Local Open Scope Z_scope.

Set Implicit Arguments.

(** ** Outcomes of a call *)

Inductive outcome (A : Type) : Type :=
| Done (a : A)      (* the call returned [a] *)
| Threw             (* the call raised a TypeError *)
| OutOfFuel.        (* the bounded model of a loop ran out of steps *)

Arguments Done {A} a.
Arguments Threw {A}.
Arguments OutOfFuel {A}.

(** ** The JavaScript [Map] holding the rooms

    Keys are strings.  A [Map] remembers insertion order; [set] on a
    key that is present replaces the value in place, [set] on a new key
    appends an entry. *)

Module JsMap.

Definition t (V : Type) : Type := list (string * V).

Definition empty {V : Type} : t V := [].

Fixpoint get {V : Type} (m : t V) (k : string) : option V :=
  match m with
  | [] => None
  | (k', v) :: rest => if String.eqb k' k then Some v else get rest k
  end.

Definition has {V : Type} (m : t V) (k : string) : bool :=
  match get m k with Some _ => true | None => false end.

Fixpoint set {V : Type} (m : t V) (k : string) (v : V) : t V :=
  match m with
  | [] => [(k, v)]
  | (k', v') :: rest =>
      if String.eqb k' k then (k', v) :: rest else (k', v') :: set rest k v
  end.

Fixpoint delete {V : Type} (m : t V) (k : string) : t V :=
  match m with
  | [] => []
  | (k', v') :: rest =>
      if String.eqb k' k then delete rest k else (k', v') :: delete rest k
  end.

Definition keys {V : Type} (m : t V) : list string := map fst m.

Definition values {V : Type} (m : t V) : list V := map snd m.

End JsMap.

(** ** Board engine *)

Definition Board : Type := list (list Z).

(** [Array.from({ length: size }, () => Array(size).fill(0))].  A
    negative [size] gives the empty array: [Array.from] clamps the
    length to 0 and never calls the row constructor. *)
Definition createEmptyBoard (size : Z) : Board :=
  repeat (repeat 0 (Z.to_nat size)) (Z.to_nat size).

Definition getOppositeTurn (turn playerCount : Z) : Z :=
  if playerCount =? 2 then
    (if turn =? 1 then 2 else 1)
  else
    (if turn =? 1 then 2 else if turn =? 2 then 3 else 1).

Definition inBounds (x y size : Z) : bool :=
  (x >=? 0) && (x <? size) && (y >=? 0) && (y <? size).

(** [a[i]] on an array: [undefined] outside [0 .. a.length - 1]. *)
Definition index {A : Type} (a : list A) (i : Z) : option A :=
  if i <? 0 then None else nth_error a (Z.to_nat i).

(** [board.length] as a number. *)
Definition len {A : Type} (a : list A) : Z := Z.of_nat (List.length a).

(** [board[y][x]] when the row [board[y]] is known to exist, as it is
    behind an [inBounds] test against [board.length]; on a missing row
    the read is treated as [undefined]. *)
Definition cell (board : Board) (x y : Z) : option Z :=
  match index board y with
  | Some row => index row x
  | None => None
  end.

(** [a === b] on values that are a number or [undefined]. *)
Definition strict_eq (a b : option Z) : bool :=
  match a, b with
  | Some u, Some v => u =? v
  | None, None => true
  | _, _ => false
  end.

(** One of the two [while] loops of [checkWin]: starting at [(nx, ny)]
    and moving by [(sx, sy)], count the cells that are in bounds and
    hold [target].  [count] is the running counter of the source. *)
Fixpoint walk (fuel : nat) (board : Board) (target : option Z)
         (nx ny sx sy : Z) (count : Z) : option Z :=
  match fuel with
  | O => None
  | S fuel' =>
      if inBounds nx ny (len board) && strict_eq (cell board nx ny) target
      then walk fuel' board target (nx + sx) (ny + sy) sx sy (count + 1)
      else Some count
  end.

Definition dirs : list (Z * Z) := [(1, 0); (0, 1); (1, 1); (1, -1)].

(** The body of [for (const [dx, dy] of dirs)]. *)
Fixpoint checkWin_dirs (fuel : nat) (board : Board) (target : option Z)
         (x y winCondition : Z) (ds : list (Z * Z)) : outcome bool :=
  match ds with
  | [] => Done false
  | (dx, dy) :: rest =>
      match walk fuel board target (x + dx) (y + dy) dx dy 1 with
      | None => OutOfFuel
      | Some c1 =>
          match walk fuel board target (x - dx) (y - dy) (- dx) (- dy) c1 with
          | None => OutOfFuel
          | Some count =>
              if count >=? winCondition then Done true
              else checkWin_dirs fuel board target x y winCondition rest
          end
      end
  end.

(** Every loop of [checkWin] leaves the board after at most
    [board.length] cells, so [board.length + 1] tests are enough. *)
Definition checkWin_fuel (board : Board) : nat := S (List.length board).

Definition checkWin (board : Board) (x y winCondition : Z) : outcome bool :=
  match index board y with
  | None => Threw                       (* board[y] is undefined *)
  | Some row =>
      let target := index row x in
      if strict_eq target (Some 0) then Done false
      else checkWin_dirs (checkWin_fuel board) board target x y winCondition dirs
  end.

Definition checkDraw (board : Board) : bool :=
  forallb (fun row => forallb (fun c => negb (c =? 0)) row) board.

(** [a[i] = v] for an index inside the array. *)
Fixpoint update {A : Type} (a : list A) (i : nat) (v : A) : list A :=
  match a, i with
  | [], _ => []
  | _ :: rest, O => v :: rest
  | h :: rest, S i' => h :: update rest i' v
  end.

(** [board[y][x] = v]; the handler only writes a cell it has just read
    as [0], hence inside both arrays. *)
Definition write (board : Board) (x y : Z) (v : Z) : Board :=
  match index board y with
  | Some row => update board (Z.to_nat y) (update row (Z.to_nat x) v)
  | None => board
  end.

(** ** Rooms, sockets and messages *)

(** The strings stored in [socket.data.side]. *)
Inductive Side : Type := black | white | green | spectator.

Record Settings : Type := {
  playerCount : Z;
  winCondition : Z;
  boardSize : Z
}.

(** [room.players]: a socket id, or [null]/[undefined] ([None]). *)
Record Players : Type := {
  p_black : option string;
  p_white : option string;
  p_third : option string
}.

Record Room : Type := {
  players : Players;
  board : Board;
  turn : Z;                 (* 1 black, 2 white, 3 third player *)
  settings : Settings
}.

(** A connected socket: its id, [socket.data], and the socket.io rooms
    it has joined (its own id from the start). *)
Record Socket : Type := {
  sid : string;
  data_roomId : option string;
  data_side : option Side;
  in_rooms : list string
}.

(** The payload of a [room_state] message; [None] is a key that is
    [undefined] or absent. *)
Record RoomState : Type := {
  rs_black : bool;
  rs_white : bool;
  rs_third : option bool;
  rs_turn : Z;
  rs_settings : option Settings
}.

Inductive Msg : Type :=
| joined (roomId : string) (side : Side) (t : Z) (b : Board) (st : Settings)
| room_state (v : RoomState)
| piece_placed (x y : Z) (player : Side)
| game_over (winner : option Side) (draw : bool)
| turn_changed (t : Side)
| reset_done (b : Board) (t : Side)
| room_created (roomId : string).        (* res.json({ roomId }) *)

Inductive Target : Type :=
| ToSocket (id : string)                 (* socket.emit *)
| ToRoom (roomId : string)               (* io.to(roomId).emit *)
| HttpReply.

Definition Emit : Type := (Target * Msg)%type.

(** [!!v] on a seat. *)
Definition truthy (v : option string) : bool :=
  match v with
  | Some id => negb (String.eqb id EmptyString)
  | None => false
  end.

(** The [room_state] payload that [join_room], [place_piece],
    [reset_game] and [disconnect] all build. *)
Definition room_view (room : Room) : RoomState :=
  {| rs_black := truthy (p_black (players room));
     rs_white := truthy (p_white (players room));
     rs_third := if playerCount (settings room) =? 3
                 then Some (truthy (p_third (players room))) else None;
     rs_turn := turn room;
     rs_settings := Some (settings room) |}.

Definition with_players (room : Room) (ps : Players) : Room :=
  {| players := ps; board := board room; turn := turn room;
     settings := settings room |}.

Definition with_board (room : Room) (b : Board) : Room :=
  {| players := players room; board := b; turn := turn room;
     settings := settings room |}.

Definition with_turn (room : Room) (t : Z) : Room :=
  {| players := players room; board := board room; turn := t;
     settings := settings room |}.

(** ** POST /api/create-room *)

Definition alphabet : string := "ABCDEFGHJKLMNPQRSTUVWXYZ23456789".

Fixpoint in_alphabet (c : ascii) (abc : string) : bool :=
  match abc with
  | EmptyString => false
  | String a rest => Ascii.eqb a c || in_alphabet c rest
  end.

Fixpoint all_in_alphabet (s : string) : bool :=
  match s with
  | EmptyString => true
  | String c rest => in_alphabet c alphabet && all_in_alphabet rest
  end.

(** What [customAlphabet(alphabet, 6)] can return. *)
Definition is_nanoid (s : string) : bool :=
  Nat.eqb (String.length s) 6 && all_in_alphabet s.

(** [let roomId = nanoid(); while (rooms.has(roomId)) roomId = nanoid();]
    on the successive results [roomId, draws] of [nanoid()]; [None]
    when all the given draws collide. *)
Fixpoint retry (rooms : JsMap.t Room) (roomId : string)
         (draws : list string) {struct draws} : option string :=
  if JsMap.has rooms roomId then
    match draws with
    | [] => None
    | next :: rest => retry rooms next rest
    end
  else Some roomId.

(** [req.body]; an absent key takes its default. *)
Record CreateBody : Type := {
  b_playerCount : option Z;
  b_winCondition : option Z;
  b_boardSize : option Z
}.

Definition or_default (v : option Z) (d : Z) : Z :=
  match v with Some z => z | None => d end.

Definition new_room (body : CreateBody) : Room :=
  let pc := or_default (b_playerCount body) 2 in
  let wc := or_default (b_winCondition body) 5 in
  let bs := or_default (b_boardSize body) 15 in
  {| players := {| p_black := None; p_white := None; p_third := None |};
     board := createEmptyBoard bs;
     turn := 1;
     settings := {| playerCount := pc; winCondition := wc; boardSize := bs |} |}.

Definition create_room (rooms : JsMap.t Room) (body : CreateBody)
           (first : string) (draws : list string)
  : outcome (JsMap.t Room * list Emit) :=
  match retry rooms first draws with
  | None => OutOfFuel
  | Some roomId =>
      Done (JsMap.set rooms roomId (new_room body),
            [(HttpReply, room_created roomId)])
  end.

(** ** Socket handlers *)

Definition default_room : Room :=
  {| players := {| p_black := None; p_white := None; p_third := None |};
     board := createEmptyBoard 15;
     turn := 1;
     settings := {| playerCount := 2; winCondition := 5; boardSize := 15 |} |}.

Definition socket_join (socket : Socket) (roomId : string) : list string :=
  if existsb (String.eqb roomId) (in_rooms socket) then in_rooms socket
  else in_rooms socket ++ [roomId].

(** The seat assignment of [join_room]. *)
Definition assign (room : Room) (id : string) : Players * Side :=
  let ps := players room in
  if negb (truthy (p_black ps)) then
    ({| p_black := Some id; p_white := p_white ps; p_third := p_third ps |},
     black)
  else if negb (truthy (p_white ps)) then
    ({| p_black := p_black ps; p_white := Some id; p_third := p_third ps |},
     white)
  else if (playerCount (settings room) =? 3) && negb (truthy (p_third ps)) then
    ({| p_black := p_black ps; p_white := p_white ps; p_third := Some id |},
     green)
  else (ps, spectator).

Definition join_room (rooms : JsMap.t Room) (socket : Socket) (roomId : string)
  : JsMap.t Room * Socket * list Emit :=
  if String.eqb roomId EmptyString then (rooms, socket, [])
  else
    let rooms1 :=
      if negb (JsMap.has rooms roomId)
      then JsMap.set rooms roomId default_room else rooms in
    match JsMap.get rooms1 roomId with
    | None => (rooms1, socket, [])
    | Some room =>
        let '(ps, side) := assign room (sid socket) in
        let room' := with_players room ps in
        let socket' :=
          {| sid := sid socket;
             data_roomId := Some roomId;
             data_side := Some side;
             in_rooms := socket_join socket roomId |} in
        (JsMap.set rooms1 roomId room', socket',
         [(ToSocket (sid socket),
           joined roomId side (turn room') (board room') (settings room'));
          (ToRoom roomId, room_state (room_view room'))])
    end.

Definition get_room_state (rooms : JsMap.t Room) (socket : Socket)
           (roomId : string) : list Emit :=
  match JsMap.get rooms roomId with
  | None => []
  | Some room =>
      [(ToSocket (sid socket),
        room_state
          {| rs_black := truthy (p_black (players room));
             rs_white := truthy (p_white (players room));
             rs_third := None;
             rs_turn := turn room;
             rs_settings := None |})]
  end.

(** [side === "black" ? 1 : side === "white" ? 2 : 3], behind the test
    that [side] is one of the three playing sides. *)
Definition playerNum (side : option Side) : option (Side * Z) :=
  match side with
  | Some black => Some (black, 1)
  | Some white => Some (white, 2)
  | Some green => Some (green, 3)
  | _ => None
  end.

Definition side_of_turn (t : Z) : Side :=
  if t =? 1 then black else if t =? 2 then white else green.

Definition place_piece (rooms : JsMap.t Room) (socket : Socket)
           (roomId : string) (x y : Z) : outcome (JsMap.t Room * list Emit) :=
  match JsMap.get rooms roomId with
  | None => Done (rooms, [])
  | Some room =>
      match playerNum (data_side socket) with
      | None => Done (rooms, [])
      | Some (side, num) =>
          if negb (turn room =? num) then Done (rooms, [])
          else if negb (inBounds x y (boardSize (settings room)))
          then Done (rooms, [])
          else
            match index (board room) y with
            | None => Threw
            | Some row =>
                if negb (strict_eq (index row x) (Some 0)) then Done (rooms, [])
                else
                  let room1 := with_board room (write (board room) x y num) in
                  match checkWin (board room1) x y
                                 (winCondition (settings room1)) with
                  | Threw => Threw
                  | OutOfFuel => OutOfFuel
                  | Done true =>
                      Done (JsMap.set rooms roomId room1,
                            [(ToRoom roomId, piece_placed x y side);
                             (ToRoom roomId, game_over (Some side) false)])
                  | Done false =>
                      if checkDraw (board room1) then
                        Done (JsMap.set rooms roomId room1,
                              [(ToRoom roomId, piece_placed x y side);
                               (ToRoom roomId, game_over None true)])
                      else
                        let room2 :=
                          with_turn room1
                            (getOppositeTurn (turn room1)
                               (playerCount (settings room1))) in
                        Done (JsMap.set rooms roomId room2,
                              [(ToRoom roomId, piece_placed x y side);
                               (ToRoom roomId,
                                turn_changed (side_of_turn (turn room2)));
                               (ToRoom roomId, room_state (room_view room2))])
                  end
            end
      end
  end.

Definition reset_game (rooms : JsMap.t Room) (socket : Socket)
           (roomId : string) : JsMap.t Room * list Emit :=
  match JsMap.get rooms roomId with
  | None => (rooms, [])
  | Some room =>
      let room' :=
        with_turn
          (with_board room (createEmptyBoard (boardSize (settings room)))) 1 in
      (JsMap.set rooms roomId room',
       [(ToRoom roomId, reset_done (board room') black);
        (ToRoom roomId, room_state (room_view room'))])
  end.

(** [room.players.black === socket.id ? null : room.players.black]. *)
Definition vacate (seat : option string) (id : string) : option string :=
  match seat with
  | Some holder => if String.eqb holder id then None else seat
  | None => None
  end.

(** [io.sockets.adapter.rooms.get(roomId)] is empty or missing: no
    connected socket has joined [roomId].  When [disconnect] fires the
    leaving socket is already out of every socket.io room, so only the
    other sockets count. *)
Definition nobody_in (others : list Socket) (roomId : string) : bool :=
  negb (existsb (fun s => existsb (String.eqb roomId) (in_rooms s)) others).

Definition disconnect (rooms : JsMap.t Room) (socket : Socket)
           (others : list Socket) : JsMap.t Room * list Emit :=
  match data_roomId socket with
  | None => (rooms, [])
  | Some roomId =>
      if String.eqb roomId EmptyString then (rooms, [])
      else
        match JsMap.get rooms roomId with
        | None => (rooms, [])
        | Some room =>
            let ps := players room in
            let room' :=
              with_players room
                {| p_black := vacate (p_black ps) (sid socket);
                   p_white := vacate (p_white ps) (sid socket);
                   p_third := vacate (p_third ps) (sid socket) |} in
            let rooms1 := JsMap.set rooms roomId room' in
            (if nobody_in others roomId then JsMap.delete rooms1 roomId
             else rooms1,
             [(ToRoom roomId, room_state (room_view room'))])
        end
  end.

(** ** The server: room table, connected sockets, and event dispatch *)

Record Server : Type := {
  rooms : JsMap.t Room;
  sockets : list Socket
}.

Definition init : Server := {| rooms := JsMap.empty; sockets := [] |}.

Inductive Event : Type :=
| PostCreateRoom (body : CreateBody) (first : string) (draws : list string)
| Connection (id : string)
| JoinRoom (id roomId : string)
| GetRoomState (id roomId : string)
| PlacePiece (id roomId : string) (x y : Z)
| ResetGame (id roomId : string)
| Disconnect (id : string).

Definition find_socket (ss : list Socket) (id : string) : option Socket :=
  find (fun s => String.eqb (sid s) id) ss.

Definition put_socket (ss : list Socket) (s : Socket) : list Socket :=
  map (fun s' => if String.eqb (sid s') (sid s) then s else s') ss.

Definition drop_socket (ss : list Socket) (id : string) : list Socket :=
  filter (fun s => negb (String.eqb (sid s) id)) ss.

Definition new_socket (id : string) : Socket :=
  {| sid := id; data_roomId := None; data_side := None; in_rooms := [id] |}.

(** Socket events only arrive on a connected socket. *)
Definition on_socket (s : Server) (id : string)
           (k : Socket -> outcome (Server * list Emit))
  : outcome (Server * list Emit) :=
  match find_socket (sockets s) id with
  | Some socket => k socket
  | None => Done (s, [])
  end.

Definition handle (s : Server) (ev : Event) : outcome (Server * list Emit) :=
  match ev with
  | PostCreateRoom body first draws =>
      match create_room (rooms s) body first draws with
      | Done (rs, out) => Done ({| rooms := rs; sockets := sockets s |}, out)
      | Threw => Threw
      | OutOfFuel => OutOfFuel
      end
  | Connection id =>
      match find_socket (sockets s) id with
      | Some _ => Done (s, [])
      | None =>
          Done ({| rooms := rooms s; sockets := sockets s ++ [new_socket id] |},
                [])
      end
  | JoinRoom id roomId =>
      on_socket s id (fun socket =>
        let '(rs, socket', out) := join_room (rooms s) socket roomId in
        Done ({| rooms := rs; sockets := put_socket (sockets s) socket' |}, out))
  | GetRoomState id roomId =>
      on_socket s id (fun socket =>
        Done (s, get_room_state (rooms s) socket roomId))
  | PlacePiece id roomId x y =>
      on_socket s id (fun socket =>
        match place_piece (rooms s) socket roomId x y with
        | Done (rs, out) => Done ({| rooms := rs; sockets := sockets s |}, out)
        | Threw => Threw
        | OutOfFuel => OutOfFuel
        end)
  | ResetGame id roomId =>
      on_socket s id (fun socket =>
        let '(rs, out) := reset_game (rooms s) socket roomId in
        Done ({| rooms := rs; sockets := sockets s |}, out))
  | Disconnect id =>
      on_socket s id (fun socket =>
        let others := drop_socket (sockets s) id in
        let '(rs, out) := disconnect (rooms s) socket others in
        Done ({| rooms := rs; sockets := others |}, out))
  end.

(** What the environment guarantees about an event: [nanoid()] returns
    six characters of the alphabet, and socket.io gives each new
    connection a fresh, non-empty id. *)
Definition event_ok (s : Server) (ev : Event) : Prop :=
  match ev with
  | PostCreateRoom _ first draws => forallb is_nanoid (first :: draws) = true
  | Connection id => id <> EmptyString /\ find_socket (sockets s) id = None
  | _ => True
  end.

Inductive reachable : Server -> Prop :=
| reach_init : reachable init
| reach_step (s : Server) (ev : Event) (s' : Server) (out : list Emit) :
    reachable s -> event_ok s ev -> handle s ev = Done (s', out) ->
    reachable s'.

(** Running a list of events from a state, keeping the messages of the
    last one. *)
Fixpoint run (s : Server) (evs : list Event) : outcome (Server * list Emit) :=
  match evs with
  | [] => Done (s, [])
  | [ev] => handle s ev
  | ev :: rest =>
      match handle s ev with
      | Done (s', _) => run s' rest
      | Threw => Threw
      | OutOfFuel => OutOfFuel
      end
  end.

(** ** Vocabulary of the specification *)

(** The four line directions through a cell. *)
Inductive Direction : Type := Horizontal | Vertical | Diagonal | AntiDiagonal.

Definition delta (d : Direction) : Z * Z :=
  match d with
  | Horizontal => (1, 0)
  | Vertical => (0, 1)
  | Diagonal => (1, 1)
  | AntiDiagonal => (1, -1)
  end.

(** A grid: as many columns in every row as there are rows. *)
Definition is_grid (b : Board) : Prop :=
  Forall (fun row => List.length row = List.length b) b.

(** Along direction [d], the [n] consecutive cells from [b] steps
    before [(x, y)] to [a] steps after it all hold [v]. *)
Definition run_through (brd : Board) (x y v : Z) (d : Direction) (n : Z)
  : Prop :=
  exists a b : Z,
    0 <= a /\ 0 <= b /\ n = a + b + 1 /\
    forall k : Z, - b <= k <= a ->
      cell brd (x + k * fst (delta d)) (y + k * snd (delta d)) = Some v.

(** The room's grid has the dimensions of its settings. *)
Definition board_ok (room : Room) : Prop :=
  List.length (board room) = Z.to_nat (boardSize (settings room)) /\
  Forall (fun row => List.length row = Z.to_nat (boardSize (settings room)))
         (board room).

(** No seat is held by the empty string, which is no socket id. *)
Definition seats_ok (room : Room) : Prop :=
  p_black (players room) <> Some EmptyString /\
  p_white (players room) <> Some EmptyString /\
  p_third (players room) <> Some EmptyString.

(** The occupant of a side; nobody holds [spectator]. *)
Definition occupant (ps : Players) (side : Side) : option string :=
  match side with
  | black => p_black ps
  | white => p_white ps
  | green => p_third ps
  | spectator => None
  end.

(** The seat the specification gives a newcomer: the first unoccupied
    one of Black, White, and (with three players) Third; otherwise the
    newcomer watches. *)
Definition first_free_seat (ps : Players) (pc : Z) : Side :=
  match p_black ps, p_white ps, p_third ps with
  | None, _, _ => black
  | Some _, None, _ => white
  | Some _, Some _, None => if pc =? 3 then green else spectator
  | Some _, Some _, Some _ => spectator
  end.

(** Messages of a handler that tell what it did. *)
Definition is_piece_placed (e : Emit) : bool :=
  match e with (_, piece_placed _ _ _) => true | _ => false end.

Definition is_game_over (e : Emit) : bool :=
  match e with (_, game_over _ _) => true | _ => false end.

Definition is_draw (e : Emit) : bool :=
  match e with (_, game_over _ true) => true | _ => false end.

(** A placement was accepted and did not end the game. *)
Definition moved_on (out : list Emit) : bool :=
  existsb is_piece_placed out && negb (existsb is_game_over out).

(** The legality test of the specification for a move of seat [num]. *)
Definition legal (room : Room) (num x y : Z) : bool :=
  inBounds x y (boardSize (settings room)) &&
  strict_eq (cell (board room) x y) (Some 0) &&
  (turn room =? num).

(** An all-Empty grid of [n] rows and [n] columns. *)
Definition empty_grid (b : Board) (n : nat) : Prop :=
  List.length b = n /\
  Forall (fun row => List.length row = n /\ Forall (fun c => c = 0) row) b.

(** ** Auxiliary notions for the analysis of [checkWin] *)

(** The test of the [while] loops of [checkWin] at a position. *)
Definition guard (brd : Board) (target : option Z) (nx ny : Z) : bool :=
  inBounds nx ny (len brd) && strict_eq (cell brd nx ny) target.

(** A bound on the number of cells a loop can still visit when one of
    its coordinates, now [p], moves by [s] = 1 or -1 at each turn on a
    board of side [size]. *)
Definition steps_left (s size p : Z) : Z :=
  if (0 <=? p) && (p <? size)
  then (if s =? 1 then size - p else p + 1)
  else 0.

(** A step that moves by one cell along [x] or along [y]. *)
Definition unit_step (sx sy : Z) : Prop :=
  (sx = 1 \/ sx = -1) \/ (sy = 1 \/ sy = -1).

(** The value of [count] that [checkWin] compares with [winCondition]
    for one direction. *)
Definition run_length (brd : Board) (target : option Z) (x y : Z)
           (d : Z * Z) : Z :=
  let fuel := checkWin_fuel brd in
  match walk fuel brd target (x + fst d) (y + snd d) (fst d) (snd d) 1 with
  | Some c1 =>
      match walk fuel brd target (x - fst d) (y - snd d)
                 (- fst d) (- snd d) c1 with
      | Some c => c
      | None => 0
      end
  | None => 0
  end.

(** ** Invariants of the room table *)

(** The turn is one of the three seats, and one of the first two in a
    two-player room. *)
Definition turn_ok (room : Room) : Prop :=
  (turn room = 1 \/ turn room = 2 \/ turn room = 3) /\
  (playerCount (settings room) = 2 -> turn room = 1 \/ turn room = 2).

Definition room_inv (room : Room) : Prop :=
  turn_ok room /\ board_ok room /\ seats_ok room.

Definition server_inv (s : Server) : Prop :=
  Forall room_inv (JsMap.values (rooms s)) /\
  NoDup (JsMap.keys (rooms s)) /\
  Forall (fun socket => sid socket <> EmptyString) (sockets s).

(** A room table obtained from another by [set]s of rooms satisfying
    [P] and by [delete]s, which is all the handlers do to it. *)
Inductive evolves (P : Room -> Prop) (m : JsMap.t Room)
  : JsMap.t Room -> Prop :=
| evolves_refl : evolves P m m
| evolves_set (m' : JsMap.t Room) (k : string) (v : Room) :
    evolves P m m' -> P v -> evolves P m (JsMap.set m' k v)
| evolves_delete (m' : JsMap.t Room) (k : string) :
    evolves P m m' -> evolves P m (JsMap.delete m' k).

(** Every event of a list is one the environment can deliver. *)
Fixpoint all_ok (s : Server) (evs : list Event) : Prop :=
  match evs with
  | [] => True
  | ev :: rest =>
      event_ok s ev /\
      match handle s ev with
      | Done (s', _) => all_ok s' rest
      | _ => False
      end
  end.

Definition server_of (o : outcome (Server * list Emit)) : Server :=
  match o with Done (s, _) => s | _ => init end.

Definition emits_of (o : outcome (Server * list Emit)) : list Emit :=
  match o with Done (_, out) => out | _ => [] end.

Definition room_of (s : Server) (roomId : string) : Room :=
  match JsMap.get (rooms s) roomId with
  | Some room => room
  | None => default_room
  end.

Definition socket_of (s : Server) (id : string) : Socket :=
  match find_socket (sockets s) id with
  | Some socket => socket
  | None => new_socket id
  end.

(** ** Concrete boards and games used as examples *)

(** The first example of the specification: five black stones in
    column 7, rows 7 to 11, on the 15 x 15 board. *)
Definition five_in_column : Board :=
  write (write (write (write (write (createEmptyBoard 15)
    7 7 1) 7 8 1) 7 9 1) 7 10 1) 7 11 1.

Definition code : string := "RKM234".

(** Two sockets join the room by its link (which creates it with the
    default settings) and play four stones each in rows 0 and 1. *)
Definition opening : list Event :=
  [Connection "sock-a"; Connection "sock-b";
   JoinRoom "sock-a" code; JoinRoom "sock-b" code;
   PlacePiece "sock-a" code 0 0; PlacePiece "sock-b" code 0 1;
   PlacePiece "sock-a" code 1 0; PlacePiece "sock-b" code 1 1;
   PlacePiece "sock-a" code 2 0; PlacePiece "sock-b" code 2 1;
   PlacePiece "sock-a" code 3 0; PlacePiece "sock-b" code 3 1].

Definition before_win : Server := server_of (run init opening).

(** Black completes five in a row at (4, 0). *)
Definition won : Server :=
  server_of (handle before_win (PlacePiece "sock-a" code 4 0)).

(** Instead, Black plays (4, 1), which ends nothing. *)
Definition played_on : Server :=
  server_of (handle before_win (PlacePiece "sock-a" code 4 1)).

(** The room when only the first socket has joined. *)
Definition one_seated : Server :=
  server_of (run init [Connection "sock-a"; Connection "sock-b";
                       JoinRoom "sock-a" code]).

(** A socket that is connected and never joined a room. *)
Definition stranger : Socket := new_socket "sock-z".

(** A three-player room with all its seats taken. *)
Definition trio_game : list Event :=
  [PostCreateRoom {| b_playerCount := Some 3; b_winCondition := None;
                     b_boardSize := None |} "TRK345" [];
   Connection "sock-a"; Connection "sock-b"; Connection "sock-c";
   JoinRoom "sock-a" "TRK345"; JoinRoom "sock-b" "TRK345";
   JoinRoom "sock-c" "TRK345"].

Definition trio : Server := server_of (run init trio_game).

(** A request for a three-player room on the large board; the first
    code drawn is the one of the room above, the second is new. *)
Definition trio_body : CreateBody :=
  {| b_playerCount := Some 3; b_winCondition := Some 6;
     b_boardSize := Some 19 |}.

Definition create_trio : Event := PostCreateRoom trio_body code ["TRK345"].

(** A 15 x 15 board with a single empty cell, (0, 0), next to four
    black stones. *)
Definition last_cell_board : Board :=
  (0 :: repeat 1 4 ++ repeat 2 10)%list :: repeat (repeat 2 15%nat) 14%nat.

Definition last_cell_room : Room :=
  {| players := {| p_black := Some "sock-a"; p_white := Some "sock-b";
                   p_third := None |};
     board := last_cell_board;
     turn := 1;
     settings := settings default_room |}.

(** ** Further notions for the properties of the handlers *)

(** The number of empty cells of a board. *)
Definition empties (b : Board) : nat :=
  fold_right (fun row n => (count_occ Z.eq_dec row 0%Z + n)%nat) 0%nat b.

(** The seats that [join_room] tries before a given side. *)
Definition seats_before (side : Side) : list Side :=
  match side with
  | black => []
  | white => [black]
  | green => [black; white]
  | spectator => [black; white; green]
  end.

(** The stones of a room are still where they were in another. *)
Definition keeps_stones (room room' : Room) : Prop :=
  forall x y v,
    cell (board room) x y = Some v -> v <> 0 ->
    cell (board room') x y = Some v.

(** ** The client's side of the protocol (client/src/pages/Room.tsx)

    The page keeps a board of ['X'], ['O'], ['T'] and [null], which it
    builds from the numbers the server sends and updates on each
    [piece_placed]; it lets a click through only when all players are
    connected and it is the player's turn. *)

Inductive Mark : Type := MarkX | MarkO | MarkT.

(** A cell of the client board; [Hole] is [undefined], the value of an
    index that an assignment beyond the end of a row leaves behind. *)
Inductive ClientCell : Type := Null | Filled (m : Mark) | Hole.

Definition ClientBoard : Type := list (list ClientCell).

(** The conversion of the [joined] handler. *)
Definition cell_of_joined (c : Z) : ClientCell :=
  if c =? 0 then Null
  else if c =? 1 then Filled MarkX
  else if c =? 2 then Filled MarkO
  else if c =? 3 then Filled MarkT
  else Null.

Definition board_of_joined (b : Board) : ClientBoard :=
  map (fun row => map cell_of_joined row) b.

(** The conversion of the [reset_done] handler, which has no case for
    the third player. *)
Definition cell_of_reset (c : Z) : ClientCell :=
  if c =? 0 then Null
  else if c =? 1 then Filled MarkX
  else if c =? 2 then Filled MarkO
  else Null.

Definition board_of_reset (b : Board) : ClientBoard :=
  map (fun row => map cell_of_reset row) b.

(** [player === 'black' ? 'X' : player === 'white' ? 'O' : 'T']. *)
Definition symbol_of_player (player : Side) : Mark :=
  match player with
  | black => MarkX
  | white => MarkO
  | _ => MarkT
  end.

(** [data.turn === 1 ? 'X' : data.turn === 2 ? 'O' : 'T']. *)
Definition current_player (t : Z) : Mark :=
  if t =? 1 then MarkX else if t =? 2 then MarkO else MarkT.

(** [row[i] = v] on a JavaScript array: inside the array the element
    is replaced, beyond its end the array grows and the skipped
    indices are holes. *)
Fixpoint store (row : list ClientCell) (i : nat) (v : ClientCell)
  : list ClientCell :=
  match row, i with
  | [], O => [v]
  | [], S i' => Hole :: store [] i' v
  | _ :: rest, O => v :: rest
  | h :: rest, S i' => h :: store rest i' v
  end.

(** The board update of the [piece_placed] handler:
    [newBoard = prev.board.map(row => [...row]); newBoard[y][x] = symbol].
    A missing row raises a TypeError; a negative [x] names a property
    of the row object, not an element, and leaves the elements alone. *)
Definition on_piece_placed (b : ClientBoard) (x y : Z) (player : Side)
  : outcome ClientBoard :=
  match index b y with
  | None => Threw
  | Some row =>
      if x <? 0 then Done b
      else Done (update b (Z.to_nat y)
                        (store row (Z.to_nat x)
                               (Filled (symbol_of_player player))))
  end.

(** The truth value of
    [data.players.black && data.players.white &&
     (data.settings?.playerCount === 2 || data.players.third)]
    in the [room_state] handler. *)
Definition all_connected (data : RoomState) : bool :=
  rs_black data && rs_white data &&
  ((match rs_settings data with
    | Some st => playerCount st =? 2
    | None => false
    end)
   || (match rs_third data with Some b => b | None => false end)).

(** The value the turn-synchronisation effect gives [isMyTurn]. *)
Definition is_my_turn (mySide : option Side) (currentPlayer : Mark)
           (allPlayersConnected : bool) : bool :=
  match mySide with
  | Some side =>
      allPlayersConnected &&
      match side, currentPlayer with
      | black, MarkX => true
      | white, MarkO => true
      | green, MarkT => true
      | _, _ => false
      end
  | None => false
  end.

(** A socket that joined [code] and then the three-player room: its
    [socket.data] names the second room only. *)
Definition roamer_game : list Event :=
  [Connection "sock-a"; Connection "sock-b";
   JoinRoom "sock-a" code; JoinRoom "sock-b" code;
   PostCreateRoom trio_body "TRK345" [];
   JoinRoom "sock-a" "TRK345"; JoinRoom "sock-b" "TRK345"].

Definition roaming : Server := server_of (run init roamer_game).

(** Rooms asked for with a win condition of 1, and of 20 on the
    15 x 15 board; the first socket has joined each. *)
Definition hasty : Server :=
  server_of (run init
    [PostCreateRoom {| b_playerCount := None; b_winCondition := Some 1;
                       b_boardSize := None |} "HST234" [];
     Connection "sock-a"; JoinRoom "sock-a" "HST234"]).

Definition endless : Server :=
  server_of (run init
    [PostCreateRoom {| b_playerCount := None; b_winCondition := Some 20;
                       b_boardSize := None |} "NDL234" [];
     Connection "sock-a"; JoinRoom "sock-a" "NDL234"]).

(** A socket whose [socket.data] names a room and a playing side has
    joined that room and is the occupant of that seat there. *)
Definition bound_ok (rooms : JsMap.t Room) (socket : Socket) : Prop :=
  forall roomId side,
    data_roomId socket = Some roomId ->
    data_side socket = Some side ->
    side <> spectator ->
    In roomId (in_rooms socket) /\
    exists room,
      JsMap.get rooms roomId = Some room /\
      occupant (players room) side = Some (sid socket).

(** Every room of a table is still in another, with at least the
    occupants it had. *)
Definition seats_kept (rooms rooms' : JsMap.t Room) : Prop :=
  forall k room,
    JsMap.get rooms k = Some room ->
    exists room',
      JsMap.get rooms' k = Some room' /\
      forall seat holder,
        occupant (players room) seat = Some holder ->
        occupant (players room') seat = Some holder.

(** * Facts about the room table *)

Section JsMapFacts.

Variable V : Type.
Implicit Types (m : JsMap.t V) (k : string) (v : V).

Lemma get_set_same m k v : JsMap.get (JsMap.set m k v) k = Some v.
Proof.
  induction m as [|[k' v'] m IH]; simpl.
  - now rewrite String.eqb_refl.
  - destruct (String.eqb k' k) eqn:E; simpl; rewrite E; auto.
Qed.

Lemma get_set_other m k k' v :
  k <> k' -> JsMap.get (JsMap.set m k v) k' = JsMap.get m k'.
Proof.
  intros Hne. induction m as [|[k0 v0] m IH]; simpl.
  - destruct (String.eqb k k') eqn:E; auto.
    apply String.eqb_eq in E. contradiction.
  - destruct (String.eqb k0 k) eqn:E; simpl.
    + apply String.eqb_eq in E. subst k0.
      destruct (String.eqb k k') eqn:E'; auto.
      apply String.eqb_eq in E'. contradiction.
    + now rewrite IH.
Qed.

Lemma get_In m k v : JsMap.get m k = Some v -> In (k, v) m.
Proof.
  induction m as [|[k' v'] m IH]; simpl; [discriminate|].
  destruct (String.eqb k' k) eqn:E.
  - apply String.eqb_eq in E. intros [= ->]. subst. now left.
  - intros H. right. auto.
Qed.

Lemma has_keys m k : JsMap.has m k = true <-> In k (JsMap.keys m).
Proof.
  unfold JsMap.has. induction m as [|[k' v'] m IH]; simpl.
  - split; [discriminate | tauto].
  - destruct (String.eqb k' k) eqn:E.
    + apply String.eqb_eq in E. split; auto.
    + apply String.eqb_neq in E. rewrite IH. split; [tauto|].
      intros [H|H]; [contradiction | assumption].
Qed.

Lemma has_false_keys m k : JsMap.has m k = false <-> ~ In k (JsMap.keys m).
Proof.
  rewrite <- has_keys. destruct (JsMap.has m k); split; intros H;
    try reflexivity; try discriminate; try congruence.
Qed.

Lemma has_get m k : JsMap.has m k = true <-> exists v, JsMap.get m k = Some v.
Proof.
  unfold JsMap.has. destruct (JsMap.get m k) as [v|].
  - split; eauto.
  - split; [discriminate | intros [v H]; discriminate].
Qed.

(** [set] on a key that is present changes no key; on a new key it
    appends that key. *)
Lemma keys_set m k v :
  JsMap.keys (JsMap.set m k v) =
  if JsMap.has m k then JsMap.keys m else (JsMap.keys m ++ [k])%list.
Proof.
  unfold JsMap.has. induction m as [|[k' v'] m IH]; simpl; auto.
  destruct (String.eqb k' k) eqn:E; simpl; auto.
  rewrite IH. destruct (JsMap.get m k); reflexivity.
Qed.

Lemma set_absent m k v :
  JsMap.has m k = false -> JsMap.set m k v = (m ++ [(k, v)])%list.
Proof.
  unfold JsMap.has. induction m as [|[k' v'] m IH]; simpl; auto.
  destruct (String.eqb k' k) eqn:E; [discriminate|].
  intros H. now rewrite IH.
Qed.

Lemma In_set m k v k' v' :
  In (k', v') (JsMap.set m k v) -> (k' = k /\ v' = v) \/ In (k', v') m.
Proof.
  induction m as [|[k0 v0] m IH]; simpl.
  - intros [[= <- <-]|[]]. now left.
  - destruct (String.eqb k0 k) eqn:E; simpl.
    + apply String.eqb_eq in E. subst k0.
      intros [[= <- <-]|H]; [now left | right; now right].
    + intros [H|H]; [right; now left|].
      destruct (IH H) as [H'|H']; [now left | right; now right].
Qed.

Lemma In_delete m k kv : In kv (JsMap.delete m k) -> In kv m.
Proof.
  induction m as [|[k0 v0] m IH]; simpl; auto.
  destruct (String.eqb k0 k); simpl; intuition.
Qed.

Lemma get_delete_same m k : JsMap.get (JsMap.delete m k) k = None.
Proof.
  induction m as [|[k0 v0] m IH]; simpl; auto.
  destruct (String.eqb k0 k) eqn:E; simpl; auto. now rewrite E.
Qed.

Lemma NoDup_keys_set m k v :
  NoDup (JsMap.keys m) -> NoDup (JsMap.keys (JsMap.set m k v)).
Proof.
  intros H. rewrite keys_set. destruct (JsMap.has m k) eqn:E; auto.
  apply has_false_keys in E.
  apply NoDup_app; auto.
  - constructor; [intros [] | constructor].
  - intros a Ha [<-|[]]. contradiction.
Qed.

Lemma NoDup_keys_delete m k :
  NoDup (JsMap.keys m) -> NoDup (JsMap.keys (JsMap.delete m k)).
Proof.
  induction m as [|[k0 v0] m IH]; simpl; auto.
  intros H. inversion H as [|? ? Hn Hd]; subst.
  destruct (String.eqb k0 k); simpl; auto.
  constructor; auto.
  intros Hin. apply Hn. unfold JsMap.keys in *.
  apply in_map_iff in Hin. destruct Hin as [[k1 v1] [Hk Hin]].
  simpl in Hk. subst k1. apply In_delete in Hin.
  apply in_map_iff. now exists (k0, v1).
Qed.

(** A property of every stored value survives [set] and [delete]. *)
Lemma values_set (P : V -> Prop) m k v :
  Forall P (JsMap.values m) -> P v -> Forall P (JsMap.values (JsMap.set m k v)).
Proof.
  intros Hm Hv. unfold JsMap.values in *. rewrite Forall_forall in *.
  intros x Hx. apply in_map_iff in Hx. destruct Hx as [[k' v'] [<- Hin]].
  simpl. destruct (In_set _ _ _ _ _ Hin) as [[_ ->]|Hin']; auto.
  apply Hm. apply in_map_iff. now exists (k', v').
Qed.

Lemma values_delete (P : V -> Prop) m k :
  Forall P (JsMap.values m) -> Forall P (JsMap.values (JsMap.delete m k)).
Proof.
  intros Hm. unfold JsMap.values in *. rewrite Forall_forall in *.
  intros x Hx. apply in_map_iff in Hx. destruct Hx as [[k' v'] [<- Hin]].
  apply In_delete in Hin. apply Hm. apply in_map_iff. now exists (k', v').
Qed.

Lemma values_get (P : V -> Prop) m k v :
  Forall P (JsMap.values m) -> JsMap.get m k = Some v -> P v.
Proof.
  intros Hm Hg. apply get_In in Hg. unfold JsMap.values in Hm.
  rewrite Forall_forall in Hm. apply Hm. apply in_map_iff. now exists (k, v).
Qed.

End JsMapFacts.


(** * Facts about the board engine *)

Section BoardFacts.

Lemma index_Some (A : Type) (a : list A) (i : Z) (v : A) :
  index a i = Some v -> 0 <= i < len a.
Proof.
  unfold index, len. destruct (i <? 0) eqn:E; [discriminate|].
  intros H. apply Z.ltb_ge in E.
  assert (Hlt : (Z.to_nat i < List.length a)%nat).
  { apply nth_error_Some. congruence. }
  lia.
Qed.

Lemma index_In (A : Type) (a : list A) (i : Z) (v : A) :
  index a i = Some v -> In v a.
Proof.
  unfold index. destruct (i <? 0); [discriminate|]. apply nth_error_In.
Qed.

Lemma index_defined (A : Type) (a : list A) (i : Z) :
  0 <= i < len a -> exists v, index a i = Some v.
Proof.
  unfold index, len. intros H.
  destruct (i <? 0) eqn:E; [apply Z.ltb_lt in E; lia|].
  destruct (nth_error a (Z.to_nat i)) as [v|] eqn:N; [eauto|].
  apply nth_error_None in N. lia.
Qed.

Lemma inBounds_iff (x y size : Z) :
  inBounds x y size = true <-> 0 <= x < size /\ 0 <= y < size.
Proof.
  unfold inBounds. rewrite !andb_true_iff, !Z.geb_le, !Z.ltb_lt. lia.
Qed.

Lemma strict_eq_Some (a : option Z) (v : Z) :
  strict_eq a (Some v) = true <-> a = Some v.
Proof.
  destruct a as [u|]; simpl.
  - rewrite Z.eqb_eq. split; congruence.
  - split; discriminate.
Qed.

(** On a grid a cell that holds a value lies in bounds. *)
Lemma cell_inBounds (brd : Board) (x y v : Z) :
  is_grid brd -> cell brd x y = Some v -> inBounds x y (len brd) = true.
Proof.
  unfold is_grid, cell. intros G H.
  destruct (index brd y) as [row|] eqn:R; [|discriminate].
  apply inBounds_iff.
  pose proof (index_Some _ _ R) as Hy. pose proof (index_Some _ _ H) as Hx.
  apply index_In in R. rewrite Forall_forall in G. specialize (G _ R).
  unfold len in *. lia.
Qed.

Lemma steps_left_bound (sx size nx : Z) :
  0 <= size -> 0 <= steps_left sx size nx <= size.
Proof.
  unfold steps_left. intros H.
  destruct ((0 <=? nx) && (nx <? size)) eqn:E; [|lia].
  apply andb_true_iff in E. destruct E as [E1 E2].
  apply Z.leb_le in E1. apply Z.ltb_lt in E2.
  destruct (sx =? 1); lia.
Qed.

Lemma steps_left_step (s size p : Z) (fuel : nat) :
  s = 1 \/ s = -1 -> 0 <= p < size ->
  steps_left s size p < Z.of_nat (S fuel) ->
  steps_left s size (p + s) < Z.of_nat fuel.
Proof.
  intros Hs Hp. unfold steps_left.
  destruct ((0 <=? p) && (p <? size)) eqn:E1.
  2:{ apply andb_false_iff in E1.
      destruct E1 as [E1|E1];
        [apply Z.leb_gt in E1 | apply Z.ltb_ge in E1]; lia. }
  destruct ((0 <=? p + s) && (p + s <? size)) eqn:E2;
    destruct Hs as [-> | ->]; simpl; lia.
Qed.

(** A loop of [checkWin] with enough fuel stops, having counted the
    longest stretch of positions that pass its test. *)
Lemma walk_counts (brd : Board) (target : option Z) (sx sy : Z) :
  forall (fuel : nat) (nx ny c : Z),
    ((sx = 1 \/ sx = -1) /\ steps_left sx (len brd) nx < Z.of_nat fuel) \/
    ((sy = 1 \/ sy = -1) /\ steps_left sy (len brd) ny < Z.of_nat fuel) ->
    exists n : nat,
      walk fuel brd target nx ny sx sy c = Some (c + Z.of_nat n) /\
      (forall i : nat, (i < n)%nat ->
         guard brd target (nx + Z.of_nat i * sx) (ny + Z.of_nat i * sy) = true) /\
      guard brd target (nx + Z.of_nat n * sx) (ny + Z.of_nat n * sy) = false.
Proof.
  induction fuel as [|fuel IH]; intros nx ny c Hfuel.
  - pose proof (steps_left_bound sx nx (Nat2Z.is_nonneg (List.length brd))).
    pose proof (steps_left_bound sy ny (Nat2Z.is_nonneg (List.length brd))).
    unfold len in *. lia.
  - simpl. fold (guard brd target nx ny).
    destruct (guard brd target nx ny) eqn:G.
    + assert (Hb : 0 <= nx < len brd /\ 0 <= ny < len brd).
      { unfold guard in G. apply andb_true_iff in G. destruct G as [G _].
        now apply inBounds_iff in G. }
      destruct Hb as [Hbx Hby].
      assert (Hnext :
        ((sx = 1 \/ sx = -1) /\
         steps_left sx (len brd) (nx + sx) < Z.of_nat fuel) \/
        ((sy = 1 \/ sy = -1) /\
         steps_left sy (len brd) (ny + sy) < Z.of_nat fuel)).
      { destruct Hfuel as [[Hs Hf]|[Hs Hf]]; [left | right]; split; auto;
          now apply steps_left_step. }
      destruct (IH (nx + sx) (ny + sy) (c + 1) Hnext) as [n [Hw [Hall Hend]]].
      exists (S n). split; [|split].
      * rewrite Hw. f_equal. lia.
      * intros [|i] Hi.
        -- simpl. now rewrite !Z.add_0_r.
        -- specialize (Hall i ltac:(lia)).
           replace (nx + Z.of_nat (S i) * sx)
             with (nx + sx + Z.of_nat i * sx) by lia.
           replace (ny + Z.of_nat (S i) * sy)
             with (ny + sy + Z.of_nat i * sy) by lia.
           exact Hall.
      * replace (nx + Z.of_nat (S n) * sx)
          with (nx + sx + Z.of_nat n * sx) by lia.
        replace (ny + Z.of_nat (S n) * sy)
          with (ny + sy + Z.of_nat n * sy) by lia.
        exact Hend.
    + exists 0%nat. split; [|split].
      * f_equal. lia.
      * intros i Hi. lia.
      * simpl. now rewrite !Z.add_0_r.
Qed.

End BoardFacts.

Section CheckWinFacts.

Variable brd : Board.
Variable target : option Z.
Variables x y : Z.

Let fuel : nat := checkWin_fuel brd.

Lemma fuel_enough (s p : Z) : steps_left s (len brd) p < Z.of_nat fuel.
Proof.
  pose proof (steps_left_bound s p (Nat2Z.is_nonneg (List.length brd))).
  unfold fuel, checkWin_fuel, len in *. lia.
Qed.

Lemma fuel_for_walk (sx sy nx ny : Z) :
  unit_step sx sy ->
  ((sx = 1 \/ sx = -1) /\ steps_left sx (len brd) nx < Z.of_nat fuel) \/
  ((sy = 1 \/ sy = -1) /\ steps_left sy (len brd) ny < Z.of_nat fuel).
Proof.
  intros [H|H]; [left | right]; split; auto using fuel_enough.
Qed.

(** Both loops of one direction return; [nf] cells are counted forward
    and [nb] backward, and the next cell on either side fails the test. *)
Lemma dir_counts (dx dy : Z) :
  unit_step dx dy ->
  exists nf nb : nat,
    walk fuel brd target (x + dx) (y + dy) dx dy 1 = Some (1 + Z.of_nat nf) /\
    walk fuel brd target (x - dx) (y - dy) (- dx) (- dy) (1 + Z.of_nat nf)
      = Some (1 + Z.of_nat nf + Z.of_nat nb) /\
    (forall k : Z, 1 <= k <= Z.of_nat nf ->
       guard brd target (x + k * dx) (y + k * dy) = true) /\
    guard brd target (x + (Z.of_nat nf + 1) * dx) (y + (Z.of_nat nf + 1) * dy)
      = false /\
    (forall k : Z, 1 <= k <= Z.of_nat nb ->
       guard brd target (x - k * dx) (y - k * dy) = true) /\
    guard brd target (x - (Z.of_nat nb + 1) * dx) (y - (Z.of_nat nb + 1) * dy)
      = false.
Proof.
  intros Hd.
  destruct (@walk_counts brd target dx dy fuel (x + dx) (y + dy) 1
              (fuel_for_walk (x + dx) (y + dy) Hd))
    as [nf [Hf [Hfa Hfe]]].
  assert (Hneg : unit_step (- dx) (- dy)) by (unfold unit_step in *; lia).
  destruct (@walk_counts brd target (- dx) (- dy) fuel (x - dx) (y - dy)
              (1 + Z.of_nat nf) (fuel_for_walk (x - dx) (y - dy) Hneg))
    as [nb [Hb [Hba Hbe]]].
  exists nf, nb. repeat split; auto.
  - intros k Hk. specialize (Hfa (Z.to_nat (k - 1)) ltac:(lia)).
    rewrite Z2Nat.id in Hfa by lia.
    replace (x + k * dx) with (x + dx + (k - 1) * dx) by ring.
    replace (y + k * dy) with (y + dy + (k - 1) * dy) by ring.
    exact Hfa.
  - replace (x + (Z.of_nat nf + 1) * dx) with (x + dx + Z.of_nat nf * dx) by ring.
    replace (y + (Z.of_nat nf + 1) * dy) with (y + dy + Z.of_nat nf * dy) by ring.
    exact Hfe.
  - intros k Hk. specialize (Hba (Z.to_nat (k - 1)) ltac:(lia)).
    rewrite Z2Nat.id in Hba by lia.
    replace (x - k * dx) with (x - dx + (k - 1) * - dx) by ring.
    replace (y - k * dy) with (y - dy + (k - 1) * - dy) by ring.
    exact Hba.
  - replace (x - (Z.of_nat nb + 1) * dx)
      with (x - dx + Z.of_nat nb * - dx) by ring.
    replace (y - (Z.of_nat nb + 1) * dy)
      with (y - dy + Z.of_nat nb * - dy) by ring.
    exact Hbe.
Qed.

(** The direction loop never runs out of fuel, and answers whether
    some direction reaches the threshold. *)
Lemma checkWin_dirs_Done (wc : Z) (ds : list (Z * Z)) :
  Forall (fun d => unit_step (fst d) (snd d)) ds ->
  checkWin_dirs fuel brd target x y wc ds =
  Done (existsb (fun d => run_length brd target x y d >=? wc) ds).
Proof.
  induction ds as [|[dx dy] ds IH]; intros Hds; [reflexivity|].
  inversion Hds as [|? ? Hd Hrest]; subst. cbn [fst snd] in Hd.
  destruct (dir_counts Hd) as [nf [nb [Hf [Hb _]]]].
  cbn [checkWin_dirs existsb]. unfold run_length at 1. cbn [fst snd].
  fold fuel. rewrite Hf, Hb.
  destruct (1 + Z.of_nat nf + Z.of_nat nb >=? wc); cbn [orb]; auto.
Qed.

End CheckWinFacts.

Lemma dirs_unit : Forall (fun d => unit_step (fst d) (snd d)) dirs.
Proof.
  unfold dirs, unit_step.
  repeat apply Forall_cons; try apply Forall_nil; simpl; lia.
Qed.

Lemma delta_unit (d : Direction) : unit_step (fst (delta d)) (snd (delta d)).
Proof. unfold unit_step. destruct d; simpl; lia. Qed.

Lemma dirs_delta (p : Z * Z) : In p dirs <-> exists d, delta d = p.
Proof.
  unfold dirs. simpl. split.
  - intros [<-|[<-|[<-|[<-|[]]]]];
      [exists Horizontal | exists Vertical | exists Diagonal
       | exists AntiDiagonal]; reflexivity.
  - intros [[] <-]; simpl; tauto.
Qed.

(** [checkWin] returns whenever the row [board[y]] exists. *)
Lemma checkWin_total (brd : Board) (x y wc : Z) (row : list Z) :
  index brd y = Some row -> exists b, checkWin brd x y wc = Done b.
Proof.
  intros R. unfold checkWin. rewrite R.
  destruct (strict_eq (index row x) (Some 0)); [eauto|].
  rewrite checkWin_dirs_Done by apply dirs_unit. eauto.
Qed.

(** [checkWin] never exhausts its fuel. *)
Lemma checkWin_fuel_enough (brd : Board) (x y wc : Z) :
  checkWin brd x y wc <> OutOfFuel.
Proof.
  unfold checkWin. destruct (index brd y); [|discriminate].
  destruct (strict_eq (index l x) (Some 0)); [discriminate|].
  rewrite checkWin_dirs_Done by apply dirs_unit. discriminate.
Qed.

(** On a grid, the count of one direction is the length of the longest
    run of the cell's value through the cell. *)
Lemma run_length_spec (brd : Board) (x y v : Z) (d : Direction) (wc : Z) :
  is_grid brd -> cell brd x y = Some v ->
  (wc <= run_length brd (Some v) x y (delta d) <->
   exists n, run_through brd x y v d n /\ wc <= n).
Proof.
  intros G C.
  destruct (@dir_counts brd (Some v) x y (fst (delta d)) (snd (delta d))
              (delta_unit d))
    as [nf [nb [Hf [Hb [Hfa [Hfe [Hba Hbe]]]]]]].
  assert (RL : run_length brd (Some v) x y (delta d)
               = 1 + Z.of_nat nf + Z.of_nat nb).
  { unfold run_length. now rewrite Hf, Hb. }
  rewrite RL.
  assert (Gtrue : forall px py, guard brd (Some v) px py = true
                                -> cell brd px py = Some v).
  { intros px py H. unfold guard in H. apply andb_true_iff in H.
    now apply strict_eq_Some. }
  assert (Gfalse : forall px py, guard brd (Some v) px py = false
                                 -> cell brd px py <> Some v).
  { intros px py H E. unfold guard in H.
    rewrite (cell_inBounds _ _ G E) in H. simpl in H.
    rewrite E in H. simpl in H. now rewrite Z.eqb_refl in H. }
  split.
  - intros Hwc. exists (1 + Z.of_nat nf + Z.of_nat nb). split; [|exact Hwc].
    exists (Z.of_nat nf), (Z.of_nat nb). repeat split; try lia.
    intros k Hk.
    destruct (Z.lt_trichotomy k 0) as [Hneg|[->|Hpos]].
    + specialize (Hba (- k) ltac:(lia)). apply Gtrue in Hba.
      replace (x + k * fst (delta d)) with (x - - k * fst (delta d)) by ring.
      replace (y + k * snd (delta d)) with (y - - k * snd (delta d)) by ring.
      exact Hba.
    + now rewrite !Z.mul_0_l, !Z.add_0_r.
    + apply Gtrue. apply Hfa. lia.
  - intros [n [[a [b [Ha [Hb' [Hn Hall]]]]] Hwc]].
    assert (a <= Z.of_nat nf).
    { destruct (Z_le_gt_dec a (Z.of_nat nf)) as [|Hgt]; [assumption|].
      exfalso. apply (Gfalse _ _ Hfe). apply Hall. lia. }
    assert (b <= Z.of_nat nb).
    { destruct (Z_le_gt_dec b (Z.of_nat nb)) as [|Hgt]; [assumption|].
      exfalso. apply (Gfalse _ _ Hbe).
      replace (x - (Z.of_nat nb + 1) * fst (delta d))
        with (x + (- (Z.of_nat nb + 1)) * fst (delta d)) by ring.
      replace (y - (Z.of_nat nb + 1) * snd (delta d))
        with (y + (- (Z.of_nat nb + 1)) * snd (delta d)) by ring.
      apply Hall. lia. }
    lia.
Qed.

(** * The board engine meets its specification *)

(** C1.  On a grid, at a cell that holds a stone [v], [checkWin]
    returns, and it returns [true] exactly when one of the four
    directions carries a run of [v] through the cell (the cell counted
    once) of length at least [winCondition]; the run may be longer. *)
Theorem checkWin_run_threshold (brd : Board) (x y wc v : Z) :
  is_grid brd -> cell brd x y = Some v -> v <> 0 ->
  exists b : bool,
    checkWin brd x y wc = Done b /\
    (b = true <-> exists d n, run_through brd x y v d n /\ wc <= n).
Proof.
  intros G C Hv.
  exists (existsb (fun d => run_length brd (Some v) x y d >=? wc) dirs).
  split.
  - unfold checkWin. unfold cell in C.
    destruct (index brd y) as [row|]; [|discriminate].
    rewrite C. simpl strict_eq.
    destruct (v =? 0) eqn:E; [apply Z.eqb_eq in E; contradiction|].
    apply checkWin_dirs_Done, dirs_unit.
  - rewrite existsb_exists. split.
    + intros [p [Hp Hge]]. apply dirs_delta in Hp. destruct Hp as [d <-].
      apply Z.geb_le in Hge.
      apply (@run_length_spec brd x y v d wc G C) in Hge.
      destruct Hge as [n Hn]. now exists d, n.
    + intros [d [n Hn]]. exists (delta d). split.
      * apply dirs_delta. now exists d.
      * apply Z.geb_le. apply (@run_length_spec brd x y v d wc G C). now exists n.
Qed.

Lemma is_grid_five_in_column : is_grid five_in_column.
Proof. unfold is_grid. vm_compute. repeat constructor. Defined.

Lemma checkWin_run_threshold_witness :
  exists b : bool,
    checkWin five_in_column 7 11 5 = Done b /\
    (b = true <->
     exists d n, run_through five_in_column 7 11 1 d n /\ 5 <= n).
Proof.
  apply (@checkWin_run_threshold five_in_column 7 11 5 1).
  - exact is_grid_five_in_column.
  - reflexivity.
  - discriminate.
Defined.

(** The stones of that column, one placement at a time: no win up to
    the fourth, a win at the fifth, and still a win when a sixth stone
    makes the run longer than the threshold. *)
Example four_in_column_no_win :
  checkWin (write (write (write (write (createEmptyBoard 15)
              7 7 1) 7 8 1) 7 9 1) 7 10 1) 7 10 5 = Done false.
Proof. vm_compute. reflexivity. Qed.

Example five_in_column_wins : checkWin five_in_column 7 11 5 = Done true.
Proof. vm_compute. reflexivity. Qed.

Example six_in_column_wins :
  checkWin (write five_in_column 7 12 1) 7 9 5 = Done true.
Proof. vm_compute. reflexivity. Qed.

Example empty_cell_no_win : checkWin five_in_column 0 0 1 = Done false.
Proof. vm_compute. reflexivity. Qed.

Example missing_row_throws : checkWin five_in_column 0 15 5 = Threw.
Proof. vm_compute. reflexivity. Qed.

(** * Facts about reading and writing cells *)

Lemma index_of_nat (A : Type) (a : list A) (n : nat) :
  index a (Z.of_nat n) = nth_error a n.
Proof.
  unfold index. destruct (Z.of_nat n <? 0) eqn:E.
  - apply Z.ltb_lt in E. lia.
  - now rewrite Nat2Z.id.
Qed.

Lemma In_index (A : Type) (a : list A) (v : A) :
  In v a <-> exists i, index a i = Some v.
Proof.
  split.
  - intros H. apply In_nth_error in H. destruct H as [n H].
    exists (Z.of_nat n). now rewrite index_of_nat.
  - intros [i H]. eapply index_In; eauto.
Qed.

Lemma length_update (A : Type) (a : list A) (i : nat) (v : A) :
  List.length (update a i v) = List.length a.
Proof.
  revert i. induction a as [|h a IH]; intros [|i]; simpl; auto.
Qed.

Lemma nth_update_same (A : Type) (a : list A) (i : nat) (v : A) :
  (i < List.length a)%nat -> nth_error (update a i v) i = Some v.
Proof.
  revert i. induction a as [|h a IH]; intros [|i]; simpl; intros H;
    try lia; auto.
  apply IH. lia.
Qed.

Lemma nth_update_other (A : Type) (a : list A) (i j : nat) (v : A) :
  i <> j -> nth_error (update a i v) j = nth_error a j.
Proof.
  revert i j. induction a as [|h a IH]; intros [|i] [|j] H; simpl; auto;
    try contradiction.
Qed.

Lemma In_update (A : Type) (a : list A) (i : nat) (v u : A) :
  In u (update a i v) -> u = v \/ In u a.
Proof.
  revert i. induction a as [|h a IH]; intros [|i]; simpl; try tauto.
  - intros [H|H]; auto.
  - intros [H|H]; auto. destruct (IH _ H); auto.
Qed.

Lemma index_update_same (A : Type) (a : list A) (i : Z) (v u : A) :
  index a i = Some u -> index (update a (Z.to_nat i) v) i = Some v.
Proof.
  intros H. pose proof (index_Some _ _ H) as Hi. unfold index, len in *.
  destruct (i <? 0); [discriminate|].
  apply nth_update_same. lia.
Qed.

Lemma index_update_other (A : Type) (a : list A) (i j : Z) (v : A) :
  0 <= i -> i <> j -> index (update a (Z.to_nat i) v) j = index a j.
Proof.
  intros Hi Hne. unfold index. destruct (j <? 0) eqn:E; auto.
  apply Z.ltb_ge in E. apply nth_update_other. lia.
Qed.

Lemma cell_write_same (brd : Board) (x y v u : Z) :
  cell brd x y = Some u -> cell (write brd x y v) x y = Some v.
Proof.
  unfold cell, write. destruct (index brd y) as [row|] eqn:R; [|discriminate].
  intros C.
  rewrite (@index_update_same _ brd y (update row (Z.to_nat x) v) row R).
  eapply index_update_same; eauto.
Qed.

Lemma cell_write_other (brd : Board) (x y v x' y' : Z) :
  0 <= x -> (x', y') <> (x, y) ->
  cell (write brd x y v) x' y' = cell brd x' y'.
Proof.
  unfold cell, write. intros Hx Hne.
  destruct (index brd y) as [row|] eqn:R; auto.
  pose proof (index_Some _ _ R) as Hy.
  destruct (Z.eq_dec y y') as [<-|Hy'].
  - rewrite (@index_update_same _ brd y (update row (Z.to_nat x) v) row R), R.
    apply index_update_other; [lia|]. congruence.
  - rewrite index_update_other by lia. reflexivity.
Qed.

(** * Facts about [place_piece] *)

Lemma board_ok_cell (room : Room) (x y : Z) :
  board_ok room -> inBounds x y (boardSize (settings room)) = true ->
  exists row u, index (board room) y = Some row /\ index row x = Some u.
Proof.
  intros [Hl Hrows] Hin. apply inBounds_iff in Hin.
  destruct (@index_defined _ (board room) y) as [row R].
  { unfold len. lia. }
  exists row. rewrite Forall_forall in Hrows.
  specialize (Hrows row (@index_In _ _ _ _ R)).
  destruct (@index_defined _ row x) as [u C].
  { unfold len. lia. }
  now exists u.
Qed.

Lemma length_write (brd : Board) (x y v : Z) :
  List.length (write brd x y v) = List.length brd.
Proof.
  unfold write. destruct (index brd y); auto using length_update.
Qed.

Lemma board_ok_write (room : Room) (x y v : Z) :
  board_ok room -> board_ok (with_board room (write (board room) x y v)).
Proof.
  intros [Hl Hrows]. unfold board_ok. simpl. split.
  - now rewrite length_write.
  - unfold write. destruct (index (board room) y) as [row|] eqn:R; auto.
    rewrite Forall_forall in *. intros r Hr.
    apply In_update in Hr. destruct Hr as [->|Hr]; auto.
    rewrite length_update. apply Hrows. eapply index_In; eauto.
Qed.

Lemma index_write_row (brd : Board) (x y v : Z) (row : list Z) :
  index brd y = Some row ->
  index (write brd x y v) y = Some (update row (Z.to_nat x) v).
Proof.
  intros R. unfold write. rewrite R. eapply index_update_same; eauto.
Qed.

Section PlacePiece.

Variable rooms : JsMap.t Room.
Variable socket : Socket.
Variable roomId : string.
Variable room : Room.
Variables (side : Side) (num : Z).

Hypothesis Hroom : JsMap.get rooms roomId = Some room.
Hypothesis Hside : playerNum (data_side socket) = Some (side, num).
Hypothesis Hok : board_ok room.

(** The room after the stone is put down, and after the turn passes. *)
Let placed (x y : Z) : Room := with_board room (write (board room) x y num).
Let passed (x y : Z) : Room :=
  with_turn (placed x y)
            (getOppositeTurn (turn room) (playerCount (settings room))).

Lemma place_piece_rejected (x y : Z) :
  legal room num x y = false -> place_piece rooms socket roomId x y = Done (rooms, []).
Proof.
  unfold legal, place_piece. rewrite Hroom, Hside. intros L.
  destruct (turn room =? num) eqn:T; simpl; auto.
  destruct (inBounds x y (boardSize (settings room))) eqn:B; simpl; auto.
  destruct (@board_ok_cell room x y Hok B) as [row [u [R C]]].
  rewrite R. unfold cell in L. rewrite R in L.
  simpl in L. rewrite andb_true_r in L. now rewrite L.
Qed.

Lemma place_piece_accepted (x y : Z) :
  legal room num x y = true ->
  exists win : bool,
    checkWin (board (placed x y)) x y (winCondition (settings room)) = Done win /\
    place_piece rooms socket roomId x y =
    Done
      (if win then
         (JsMap.set rooms roomId (placed x y),
          [(ToRoom roomId, piece_placed x y side);
           (ToRoom roomId, game_over (Some side) false)])
       else if checkDraw (board (placed x y)) then
         (JsMap.set rooms roomId (placed x y),
          [(ToRoom roomId, piece_placed x y side);
           (ToRoom roomId, game_over None true)])
       else
         (JsMap.set rooms roomId (passed x y),
          [(ToRoom roomId, piece_placed x y side);
           (ToRoom roomId, turn_changed (side_of_turn (turn (passed x y))));
           (ToRoom roomId, room_state (room_view (passed x y)))])).
Proof.
  unfold legal. rewrite !andb_true_iff. intros [[B E] T].
  destruct (@board_ok_cell room x y Hok B) as [row [u [R C]]].
  destruct (@checkWin_total (board (placed x y)) x y
              (winCondition (settings room)) (update row (Z.to_nat x) num))
    as [win W].
  { simpl. now apply index_write_row. }
  exists win. split; [exact W|].
  unfold place_piece. rewrite Hroom, Hside, T, B, R. simpl negb. cbv iota.
  unfold cell in E. rewrite R in E. rewrite E. simpl negb. cbv iota.
  fold (placed x y). change (winCondition (settings (placed x y)))
    with (winCondition (settings room)).
  rewrite W. destruct win; [reflexivity|].
  destruct (checkDraw (board (placed x y))); reflexivity.
Qed.

End PlacePiece.

Lemma legal_iff (room : Room) (num x y : Z) :
  legal room num x y = true <->
  (0 <= x < boardSize (settings room) /\ 0 <= y < boardSize (settings room)) /\
  cell (board room) x y = Some 0 /\
  turn room = num.
Proof.
  unfold legal.
  now rewrite !andb_true_iff, inBounds_iff, strict_eq_Some, Z.eqb_eq.
Qed.

(** C2.  In a room whose grid has the configured size, a [place_piece]
    from a socket holding a playing side returns; the stone is placed
    (the cell is written with the side's number and [piece_placed] is
    broadcast) exactly when the coordinates are in bounds, the cell is
    empty and the side has the turn; otherwise the room table is left
    as it was and nothing is emitted. *)
Theorem place_piece_iff_legal
        (rooms : JsMap.t Room) (socket : Socket) (roomId : string)
        (room : Room) (side : Side) (num x y : Z) :
  JsMap.get rooms roomId = Some room ->
  playerNum (data_side socket) = Some (side, num) ->
  board_ok room ->
  exists rooms' out,
    place_piece rooms socket roomId x y = Done (rooms', out) /\
    (legal room num x y = true <->
     In (ToRoom roomId, piece_placed x y side) out) /\
    (legal room num x y = true ->
     exists room',
       JsMap.get rooms' roomId = Some room' /\
       board room' = write (board room) x y num /\
       cell (board room') x y = Some num /\
       players room' = players room /\ settings room' = settings room) /\
    (legal room num x y = false -> rooms' = rooms /\ out = []).
Proof.
  intros Hroom Hside Hok.
  destruct (legal room num x y) eqn:L.
  - destruct (@place_piece_accepted rooms socket roomId room side num
                Hroom Hside Hok x y L) as [win [W P]].
    assert (Hcell : cell (write (board room) x y num) x y = Some num).
    { apply legal_iff in L. destruct L as [_ [C _]].
      eapply cell_write_same; eauto. }
    destruct win; [|destruct (checkDraw _)];
      (eexists; eexists; split; [exact P|]);
      (split; [split; [intros _; simpl; auto | reflexivity]|]);
      (split; [intros _ | discriminate]);
      (eexists; split; [apply get_set_same|]); simpl; auto.
  - exists rooms, []. split.
    + now apply (@place_piece_rejected rooms socket roomId room side num).
    + split; [split; [discriminate | intros []]|].
      split; [discriminate | auto].
Qed.

(** [checkDraw] answers whether no cell of the board is empty. *)
Lemma checkDraw_full (brd : Board) :
  checkDraw brd = true <-> forall x y, cell brd x y <> Some 0.
Proof.
  unfold checkDraw. rewrite forallb_forall. split.
  - intros H x y C. unfold cell in C.
    destruct (index brd y) as [row|] eqn:R; [|discriminate].
    specialize (H row (@index_In _ _ _ _ R)).
    rewrite forallb_forall in H.
    specialize (H 0 (@index_In _ _ _ _ C)). discriminate.
  - intros H row Hrow. apply forallb_forall. intros c Hc.
    apply In_index in Hrow. destruct Hrow as [j R].
    apply In_index in Hc. destruct Hc as [i C].
    destruct (c =? 0) eqn:E; [|reflexivity].
    apply Z.eqb_eq in E. subst c. exfalso. apply (H i j).
    unfold cell. now rewrite R.
Qed.

(** C4.  [checkDraw] answers whether no cell is empty; and a placement
    that wins on the move that fills the grid is reported as a win of
    the placing side, with no draw message. *)
Theorem draw_only_without_win :
  (forall brd : Board,
      checkDraw brd = true <-> forall x y, cell brd x y <> Some 0) /\
  (forall (rooms : JsMap.t Room) (socket : Socket) (roomId : string)
          (room : Room) (side : Side) (num x y : Z),
      JsMap.get rooms roomId = Some room ->
      playerNum (data_side socket) = Some (side, num) ->
      board_ok room ->
      legal room num x y = true ->
      checkWin (write (board room) x y num) x y (winCondition (settings room))
        = Done true ->
      checkDraw (write (board room) x y num) = true ->
      place_piece rooms socket roomId x y =
      Done (JsMap.set rooms roomId
              (with_board room (write (board room) x y num)),
            [(ToRoom roomId, piece_placed x y side);
             (ToRoom roomId, game_over (Some side) false)])).
Proof.
  split.
  - exact checkDraw_full.
  - intros rooms socket roomId room side num x y Hroom Hside Hok L W D.
    destruct (@place_piece_accepted rooms socket roomId room side num
                Hroom Hside Hok x y L) as [win [W' P]].
    simpl in W'. rewrite W in W'. injection W' as <-. exact P.
Qed.

Lemma playerNum_side (o : option Side) (side : Side) (num : Z) :
  playerNum o = Some (side, num) ->
  o = Some side /\ 1 <= num <= 3 /\ playerNum (Some side) = Some (side, num).
Proof.
  destruct o as [[]|]; simpl; intros [= <- <-]; repeat split; lia.
Qed.

Lemma playerNum_inj (a b : option Side) (sa sb : Side) (num : Z) :
  playerNum a = Some (sa, num) -> playerNum b = Some (sb, num) -> a = b.
Proof.
  destruct a as [[]|], b as [[]|]; simpl; intros Ha Hb;
    try reflexivity; try discriminate; congruence.
Qed.

(** A socket that holds no playing side is turned away. *)
Lemma place_piece_spectator
      (rooms : JsMap.t Room) (socket : Socket) (roomId : string) (x y : Z) :
  playerNum (data_side socket) = None ->
  place_piece rooms socket roomId x y = Done (rooms, []).
Proof.
  intros H. unfold place_piece. rewrite H.
  now destruct (JsMap.get rooms roomId).
Qed.

(** On a room table whose boards have their configured size,
    [place_piece] raises nothing: it always returns. *)
Lemma place_piece_returns
      (rooms : JsMap.t Room) (socket : Socket) (roomId : string) (x y : Z) :
  Forall board_ok (JsMap.values rooms) ->
  exists rooms' out, place_piece rooms socket roomId x y = Done (rooms', out).
Proof.
  intros Hinv.
  destruct (playerNum (data_side socket)) as [[side num]|] eqn:S.
  2:{ rewrite place_piece_spectator by assumption. eauto. }
  destruct (JsMap.get rooms roomId) as [room|] eqn:G.
  2:{ unfold place_piece. rewrite G. eauto. }
  assert (Hok : board_ok room) by (eapply values_get; eauto).
  destruct (legal room num x y) eqn:L.
  - destruct (@place_piece_accepted rooms socket roomId room side num
                G S Hok x y L) as [win [_ P]].
    rewrite P.
    destruct win;
      [|destruct (checkDraw
                    (board (with_board room (write (board room) x y num))))];
      eauto.
  - rewrite (@place_piece_rejected rooms socket roomId room side num
               G S Hok x y L). eauto.
Qed.

(** After a placement that ended the game the stone is on the board
    and the turn is still the placing side's. *)
Lemma place_piece_game_over
      (rooms : JsMap.t Room) (socket : Socket) (roomId : string)
      (room : Room) (side : Side) (num x y : Z)
      (rooms1 : JsMap.t Room) (out1 : list Emit) :
  JsMap.get rooms roomId = Some room ->
  playerNum (data_side socket) = Some (side, num) ->
  board_ok room ->
  place_piece rooms socket roomId x y = Done (rooms1, out1) ->
  existsb is_game_over out1 = true ->
  legal room num x y = true /\
  rooms1 = JsMap.set rooms roomId
                     (with_board room (write (board room) x y num)) /\
  (existsb is_draw out1 = true ->
   checkDraw (write (board room) x y num) = true).
Proof.
  intros Hroom Hside Hok P G.
  destruct (legal room num x y) eqn:L.
  - split; [reflexivity|].
    destruct (@place_piece_accepted rooms socket roomId room side num
                Hroom Hside Hok x y L) as [win [W P']].
    rewrite P in P'. simpl in P'.
    destruct win.
    + injection P' as -> ->. split; [reflexivity | discriminate].
    + destruct (checkDraw (write (board room) x y num)) eqn:D.
      * injection P' as -> ->. split; auto.
      * injection P' as -> ->. discriminate.
  - rewrite (@place_piece_rejected rooms socket roomId room side num
               Hroom Hside Hok x y L) in P.
    injection P as <- <-. discriminate.
Qed.

(** C3 (as amended).  The server keeps no game-over status.  After a
    placement that ended the game, the turn is still the placing
    side's: a [place_piece] from a socket of any other side (or of
    none) changes nothing and emits nothing, and so does every
    [place_piece] once the board is full; but the side that placed
    last is still served on an empty cell in bounds. *)
Theorem game_over_keeps_turn
        (rooms : JsMap.t Room) (socket : Socket) (roomId : string)
        (room : Room) (side : Side) (num x y : Z)
        (rooms1 : JsMap.t Room) (out1 : list Emit) :
  JsMap.get rooms roomId = Some room ->
  playerNum (data_side socket) = Some (side, num) ->
  board_ok room ->
  place_piece rooms socket roomId x y = Done (rooms1, out1) ->
  existsb is_game_over out1 = true ->
  exists room1,
    JsMap.get rooms1 roomId = Some room1 /\
    turn room1 = num /\
    (forall socket' x' y',
        data_side socket' <> Some side ->
        place_piece rooms1 socket' roomId x' y' = Done (rooms1, [])) /\
    (existsb is_draw out1 = true \/ checkDraw (board room1) = true ->
     forall socket' x' y',
       place_piece rooms1 socket' roomId x' y' = Done (rooms1, [])) /\
    (forall socket' x' y',
        data_side socket' = Some side ->
        legal room1 num x' y' = true ->
        exists rooms2 out2,
          place_piece rooms1 socket' roomId x' y' = Done (rooms2, out2) /\
          In (ToRoom roomId, piece_placed x' y' side) out2).
Proof.
  intros Hroom Hside Hok P G.
  destruct (@place_piece_game_over rooms socket roomId room side num x y
              rooms1 out1 Hroom Hside Hok P G) as [L [-> Hdraw]].
  set (room1 := with_board room (write (board room) x y num)).
  assert (Hroom1 : JsMap.get (JsMap.set rooms roomId room1) roomId = Some room1)
    by apply get_set_same.
  assert (Hok1 : board_ok room1) by now apply board_ok_write.
  assert (Hturn : turn room1 = num).
  { apply legal_iff in L. simpl. tauto. }
  destruct (playerNum_side _ Hside) as [Hs [_ Hnum]].
  exists room1. split; [exact Hroom1|]. split; [exact Hturn|].
  split; [|split].
  - intros socket' x' y' Hother.
    destruct (playerNum (data_side socket')) as [[side' num']|] eqn:S'.
    + apply (@place_piece_rejected _ socket' roomId room1 side' num'
               Hroom1 S' Hok1).
      unfold legal. destruct (turn room1 =? num') eqn:T.
      * apply Z.eqb_eq in T. exfalso. apply Hother.
        rewrite <- Hs. rewrite Hturn in T. subst num'.
        eapply playerNum_inj; eauto.
      * apply andb_false_r.
    + now apply place_piece_spectator.
  - intros Hfull socket' x' y'.
    assert (D : checkDraw (board room1) = true).
    { destruct Hfull as [Hd|Hd]; [now apply Hdraw | exact Hd]. }
    destruct (playerNum (data_side socket')) as [[side' num']|] eqn:S'.
    + apply (@place_piece_rejected _ socket' roomId room1 side' num'
               Hroom1 S' Hok1).
      unfold legal.
      destruct (strict_eq (cell (board room1) x' y') (Some 0)) eqn:E.
      * apply strict_eq_Some in E. exfalso.
        now apply (proj1 (checkDraw_full (board room1)) D x' y').
      * now rewrite andb_false_r.
    + now apply place_piece_spectator.
  - intros socket' x' y' Hsame L'.
    assert (S' : playerNum (data_side socket') = Some (side, num))
      by now rewrite Hsame.
    destruct (@place_piece_accepted _ socket' roomId room1 side num
                Hroom1 S' Hok1 x' y' L') as [win [_ P']].
    destruct win;
      [|destruct (checkDraw
                    (board (with_board room1 (write (board room1) x' y' num))))];
      (eexists; eexists; split; [exact P'|]); simpl; auto.
Qed.

(** * The example games *)

Lemma reachable_run (evs : list Event) :
  forall s : Server,
    reachable s -> all_ok s evs ->
    exists s' out, run s evs = Done (s', out) /\ reachable s'.
Proof.
  induction evs as [|ev rest IH]; intros s R Hok.
  - exists s, []. split; [reflexivity | exact R].
  - destruct Hok as [Hev Hrest].
    destruct (handle s ev) as [[s1 out1]| |] eqn:H; try contradiction.
    assert (R1 : reachable s1) by (eapply reach_step; eauto).
    destruct rest as [|ev' rest'].
    + exists s1, out1. simpl. rewrite H. now split.
    + destruct (IH s1 R1 Hrest) as [s' [out [Hrun R']]].
      exists s', out. split; [|exact R'].
      change (run s (ev :: ev' :: rest'))
        with (match handle s ev with
              | Done (s0, _) => run s0 (ev' :: rest')
              | Threw => Threw
              | OutOfFuel => OutOfFuel
              end).
      now rewrite H.
Qed.

Lemma all_ok_opening : all_ok init opening.
Proof.
  vm_compute.
  repeat (split; [first [exact I | split; [discriminate | reflexivity]]|]);
    exact I.
Qed.

Lemma reachable_before_win : reachable before_win.
Proof.
  destruct (@reachable_run opening init reach_init all_ok_opening)
    as [s' [out [Hrun R]]].
  unfold before_win. now rewrite Hrun.
Qed.

Lemma reachable_won : reachable won.
Proof.
  apply (@reach_step before_win (PlacePiece "sock-a" code 4 0) won
           [(ToRoom code, piece_placed 4 0 black);
            (ToRoom code, game_over (Some black) false)]).
  - exact reachable_before_win.
  - exact I.
  - vm_compute. reflexivity.
Qed.

Lemma board_ok_before_win : board_ok (room_of before_win code).
Proof.
  split; [vm_compute; reflexivity | vm_compute; repeat constructor].
Defined.

Lemma board_ok_last_cell_room : board_ok last_cell_room.
Proof.
  split; [vm_compute; reflexivity | vm_compute; repeat constructor].
Defined.

Lemma place_piece_iff_legal_witness :
  exists rooms' out,
    place_piece (rooms before_win) (socket_of before_win "sock-a") code 4 0
      = Done (rooms', out) /\
    (legal (room_of before_win code) 1 4 0 = true <->
     In (ToRoom code, piece_placed 4 0 black) out) /\
    (legal (room_of before_win code) 1 4 0 = true ->
     exists room',
       JsMap.get rooms' code = Some room' /\
       board room' = write (board (room_of before_win code)) 4 0 1 /\
       cell (board room') 4 0 = Some 1 /\
       players room' = players (room_of before_win code) /\
       settings room' = settings (room_of before_win code)) /\
    (legal (room_of before_win code) 1 4 0 = false ->
     rooms' = rooms before_win /\ out = []).
Proof.
  apply (@place_piece_iff_legal (rooms before_win)
           (socket_of before_win "sock-a") code (room_of before_win code)
           black 1 4 0).
  - vm_compute. reflexivity.
  - vm_compute. reflexivity.
  - exact board_ok_before_win.
Defined.

Lemma draw_only_without_win_witness :
  place_piece [(code, last_cell_room)] (socket_of before_win "sock-a")
              code 0 0 =
  Done (JsMap.set [(code, last_cell_room)] code
          (with_board last_cell_room (write last_cell_board 0 0 1)),
        [(ToRoom code, piece_placed 0 0 black);
         (ToRoom code, game_over (Some black) false)]).
Proof.
  apply (proj2 draw_only_without_win [(code, last_cell_room)]
           (socket_of before_win "sock-a") code last_cell_room black 1 0 0).
  - vm_compute. reflexivity.
  - vm_compute. reflexivity.
  - exact board_ok_last_cell_room.
  - vm_compute. reflexivity.
  - vm_compute. reflexivity.
  - vm_compute. reflexivity.
Defined.

(** C3 fails as stated: in a reachable state where Black has just won,
    it is not so that every [place_piece] is turned away; Black's next
    [place_piece] on an empty cell is broadcast and changes the
    board. *)
Lemma winner_still_served :
  reachable won /\
  handle before_win (PlacePiece "sock-a" code 4 0) =
  Done (won, [(ToRoom code, piece_placed 4 0 black);
              (ToRoom code, game_over (Some black) false)]) /\
  cell (board (room_of won code)) 5 0 = Some 0 /\
  (exists s',
      handle won (PlacePiece "sock-a" code 5 0) =
      Done (s', [(ToRoom code, piece_placed 5 0 black);
                 (ToRoom code, game_over (Some black) false)]) /\
      cell (board (room_of s' code)) 5 0 = Some 1) /\
  ~ (forall id x y, handle won (PlacePiece id code x y) = Done (won, [])).
Proof.
  split; [exact reachable_won|].
  split; [vm_compute; reflexivity|].
  split; [vm_compute; reflexivity|].
  split.
  - eexists. split; vm_compute; reflexivity.
  - intros H. specialize (H "sock-a" 5 0). vm_compute in H. discriminate H.
Qed.

Lemma game_over_keeps_turn_witness :
  exists room1,
    JsMap.get (rooms won) code = Some room1 /\
    turn room1 = 1 /\
    (forall socket' x' y',
        data_side socket' <> Some black ->
        place_piece (rooms won) socket' code x' y' = Done (rooms won, [])) /\
    (existsb is_draw
       [(ToRoom code, piece_placed 4 0 black);
        (ToRoom code, game_over (Some black) false)] = true \/
     checkDraw (board room1) = true ->
     forall socket' x' y',
       place_piece (rooms won) socket' code x' y' = Done (rooms won, [])) /\
    (forall socket' x' y',
        data_side socket' = Some black ->
        legal room1 1 x' y' = true ->
        exists rooms2 out2,
          place_piece (rooms won) socket' code x' y' = Done (rooms2, out2) /\
          In (ToRoom code, piece_placed x' y' black) out2).
Proof.
  apply (@game_over_keeps_turn (rooms before_win)
           (socket_of before_win "sock-a") code (room_of before_win code)
           black 1 4 0 (rooms won)
           [(ToRoom code, piece_placed 4 0 black);
            (ToRoom code, game_over (Some black) false)]).
  - vm_compute. reflexivity.
  - vm_compute. reflexivity.
  - exact board_ok_before_win.
  - vm_compute. reflexivity.
  - vm_compute. reflexivity.
Defined.

(** * Invariants of the reachable states *)

Lemma evolves_values (P : Room -> Prop) (m m' : JsMap.t Room) :
  evolves P m m' -> Forall P (JsMap.values m) -> Forall P (JsMap.values m').
Proof.
  induction 1; intros Hm; auto using values_set, values_delete.
Qed.

Lemma evolves_keys (P : Room -> Prop) (m m' : JsMap.t Room) :
  evolves P m m' -> NoDup (JsMap.keys m) -> NoDup (JsMap.keys m').
Proof.
  induction 1; intros Hm; auto using NoDup_keys_set, NoDup_keys_delete.
Qed.

Lemma board_ok_empty (room : Room) (b : Board) :
  b = createEmptyBoard (boardSize (settings room)) ->
  board_ok (with_board room b).
Proof.
  intros ->. unfold board_ok, createEmptyBoard. simpl. split.
  - apply repeat_length.
  - apply Forall_forall. intros row Hrow. apply repeat_spec in Hrow.
    subst row. apply repeat_length.
Qed.

Lemma room_inv_default : room_inv default_room.
Proof.
  split; [|split].
  - split; simpl; auto.
  - apply (@board_ok_empty default_room). reflexivity.
  - repeat split; discriminate.
Qed.

Lemma room_inv_new_room (body : CreateBody) : room_inv (new_room body).
Proof.
  split; [|split].
  - split; simpl; auto.
  - apply (@board_ok_empty (new_room body)). reflexivity.
  - repeat split; discriminate.
Qed.

Lemma room_inv_placed (room : Room) (x y v : Z) :
  room_inv room -> room_inv (with_board room (write (board room) x y v)).
Proof.
  intros [T [B S]]. split; [exact T|]. split; [|exact S].
  now apply board_ok_write.
Qed.

Lemma getOppositeTurn_range (t pc : Z) :
  let t' := getOppositeTurn t pc in
  (t' = 1 \/ t' = 2 \/ t' = 3) /\ (pc = 2 -> t' = 1 \/ t' = 2).
Proof.
  unfold getOppositeTurn.
  destruct (pc =? 2) eqn:E; destruct (t =? 1); try destruct (t =? 2);
    simpl; split; auto; intros ->; discriminate.
Qed.

Lemma room_inv_passed (room : Room) :
  room_inv room ->
  room_inv (with_turn room
              (getOppositeTurn (turn room) (playerCount (settings room)))).
Proof.
  intros [T [B S]]. split; [|split; assumption].
  apply getOppositeTurn_range.
Qed.

Lemma room_inv_reset (room : Room) :
  room_inv room ->
  room_inv (with_turn
              (with_board room (createEmptyBoard (boardSize (settings room))))
              1).
Proof.
  intros [T [B S]]. split; [|split].
  - split; simpl; auto.
  - apply (@board_ok_empty room). reflexivity.
  - exact S.
Qed.

Lemma room_inv_assign (room : Room) (id : string) :
  room_inv room -> id <> EmptyString ->
  room_inv (with_players room (fst (assign room id))).
Proof.
  intros [T [B [Sb [Sw St]]]] Hid.
  split; [exact T|]. split; [exact B|].
  assert (Hnew : Some id <> Some EmptyString) by congruence.
  unfold assign.
  destruct (negb (truthy (p_black (players room))));
    [|destruct (negb (truthy (p_white (players room))));
      [|destruct ((playerCount (settings room) =? 3)
                  && negb (truthy (p_third (players room))))]];
    repeat split; simpl; auto.
Qed.

Lemma vacate_ok (seat : option string) (id : string) :
  seat <> Some EmptyString -> vacate seat id <> Some EmptyString.
Proof.
  unfold vacate. destruct seat as [holder|]; auto.
  destruct (String.eqb holder id); auto. discriminate.
Qed.

Lemma room_inv_vacate (room : Room) (id : string) :
  room_inv room ->
  room_inv
    (with_players room
       {| p_black := vacate (p_black (players room)) id;
          p_white := vacate (p_white (players room)) id;
          p_third := vacate (p_third (players room)) id |}).
Proof.
  intros [T [B [Sb [Sw St]]]]. split; [exact T|]. split; [exact B|].
  repeat split; simpl; now apply vacate_ok.
Qed.

Lemma create_room_evolves
      (rooms : JsMap.t Room) (body : CreateBody) (first : string)
      (draws : list string) (rooms' : JsMap.t Room) (out : list Emit) :
  create_room rooms body first draws = Done (rooms', out) ->
  evolves room_inv rooms rooms'.
Proof.
  unfold create_room. destruct (retry rooms first draws); [|discriminate].
  intros [= <- _]. apply evolves_set; [apply evolves_refl|].
  apply room_inv_new_room.
Qed.

Lemma join_room_evolves
      (rooms : JsMap.t Room) (socket : Socket) (roomId : string) :
  Forall room_inv (JsMap.values rooms) -> sid socket <> EmptyString ->
  evolves room_inv rooms (fst (fst (join_room rooms socket roomId))) /\
  sid (snd (fst (join_room rooms socket roomId))) = sid socket.
Proof.
  intros Hinv Hid. unfold join_room.
  destruct (String.eqb roomId EmptyString); [split; [apply evolves_refl | reflexivity]|].
  set (rooms1 := if negb (JsMap.has rooms roomId)
                 then JsMap.set rooms roomId default_room else rooms).
  assert (E1 : evolves room_inv rooms rooms1).
  { unfold rooms1. destruct (negb (JsMap.has rooms roomId)).
    - apply evolves_set; [apply evolves_refl | apply room_inv_default].
    - apply evolves_refl. }
  destruct (JsMap.get rooms1 roomId) as [room|] eqn:G;
    [|split; [exact E1 | reflexivity]].
  assert (Hroom : room_inv room).
  { eapply values_get; [|exact G]. eapply evolves_values; eauto. }
  destruct (assign room (sid socket)) as [ps side] eqn:A.
  simpl. split; [|reflexivity].
  apply evolves_set; [exact E1|].
  replace ps with (fst (assign room (sid socket))) by now rewrite A.
  now apply room_inv_assign.
Qed.

Lemma place_piece_evolves
      (rooms : JsMap.t Room) (socket : Socket) (roomId : string) (x y : Z)
      (rooms' : JsMap.t Room) (out : list Emit) :
  Forall room_inv (JsMap.values rooms) ->
  place_piece rooms socket roomId x y = Done (rooms', out) ->
  evolves room_inv rooms rooms'.
Proof.
  intros Hinv. unfold place_piece.
  destruct (JsMap.get rooms roomId) as [room|] eqn:G;
    [|intros [= <- _]; apply evolves_refl].
  assert (Hroom : room_inv room) by (eapply values_get; eauto).
  destruct (playerNum (data_side socket)) as [[side num]|];
    [|intros [= <- _]; apply evolves_refl].
  destruct (negb (turn room =? num)); [intros [= <- _]; apply evolves_refl|].
  destruct (negb (inBounds x y (boardSize (settings room))));
    [intros [= <- _]; apply evolves_refl|].
  destruct (index (board room) y) as [row|]; [|discriminate].
  destruct (negb (strict_eq (index row x) (Some 0)));
    [intros [= <- _]; apply evolves_refl|].
  destruct (checkWin _ x y _) as [[|]| |]; try discriminate.
  - intros [= <- _]. apply evolves_set; [apply evolves_refl|].
    now apply room_inv_placed.
  - destruct (checkDraw _); intros [= <- _];
      (apply evolves_set; [apply evolves_refl|]).
    + now apply room_inv_placed.
    + apply (@room_inv_passed (with_board room (write (board room) x y num))).
      now apply room_inv_placed.
Qed.

Lemma reset_game_evolves
      (rooms : JsMap.t Room) (socket : Socket) (roomId : string) :
  Forall room_inv (JsMap.values rooms) ->
  evolves room_inv rooms (fst (reset_game rooms socket roomId)).
Proof.
  intros Hinv. unfold reset_game.
  destruct (JsMap.get rooms roomId) as [room|] eqn:G; [|apply evolves_refl].
  simpl. apply evolves_set; [apply evolves_refl|].
  apply room_inv_reset. eapply values_get; eauto.
Qed.

Lemma disconnect_evolves
      (rooms : JsMap.t Room) (socket : Socket) (others : list Socket) :
  Forall room_inv (JsMap.values rooms) ->
  evolves room_inv rooms (fst (disconnect rooms socket others)).
Proof.
  intros Hinv. unfold disconnect.
  destruct (data_roomId socket) as [roomId|]; [|apply evolves_refl].
  destruct (String.eqb roomId EmptyString); [apply evolves_refl|].
  destruct (JsMap.get rooms roomId) as [room|] eqn:G; [|apply evolves_refl].
  assert (Hroom : room_inv room) by (eapply values_get; eauto).
  simpl.
  destruct (nobody_in others roomId); [apply evolves_delete|];
    (apply evolves_set; [apply evolves_refl|]); now apply room_inv_vacate.
Qed.

Lemma find_socket_In (ss : list Socket) (id : string) (socket : Socket) :
  find_socket ss id = Some socket -> In socket ss /\ sid socket = id.
Proof.
  unfold find_socket. intros H. apply find_some in H.
  destruct H as [Hin E]. apply String.eqb_eq in E. now split.
Qed.

(** Every reachable state satisfies the server invariant. *)
Lemma reachable_inv (s : Server) : reachable s -> server_inv s.
Proof.
  induction 1 as [|s ev s' out R IH Hev Hstep].
  - repeat split; constructor.
  - destruct IH as [Hrooms [Hkeys Hsocks]].
    assert (Hfind : forall id socket,
               find_socket (sockets s) id = Some socket -> sid socket <> EmptyString).
    { intros id socket F. apply find_socket_In in F. destruct F as [Hin _].
      rewrite Forall_forall in Hsocks. now apply Hsocks. }
    assert (Hev' : forall m, evolves room_inv (rooms s) m ->
                             Forall room_inv (JsMap.values m) /\
                             NoDup (JsMap.keys m)).
    { intros m E. split; [eapply evolves_values | eapply evolves_keys]; eauto. }
    destruct ev as [body first draws|id|id roomId|id roomId|id roomId x y
                    |id roomId|id]; simpl in Hstep; unfold on_socket in Hstep.
    + destruct (create_room (rooms s) body first draws) as [[rs o]| |] eqn:C;
        try discriminate.
      injection Hstep as <- _. apply create_room_evolves in C.
      destruct (Hev' _ C). repeat split; assumption.
    + destruct (find_socket (sockets s) id); injection Hstep as <- _.
      * repeat split; assumption.
      * repeat split; try assumption. simpl.
        apply Forall_app. split; [assumption|].
        constructor; [|constructor]. simpl. apply Hev.
    + destruct (find_socket (sockets s) id) as [socket|] eqn:F;
        [|injection Hstep as <- _; repeat split; assumption].
      destruct (@join_room_evolves (rooms s) socket roomId Hrooms (Hfind _ _ F))
        as [E Hsid].
      destruct (join_room (rooms s) socket roomId) as [[rs socket'] o].
      simpl in E, Hsid. injection Hstep as <- _.
      destruct (Hev' _ E). repeat split; try assumption. simpl.
      unfold put_socket. apply Forall_forall. intros sk Hsk.
      apply in_map_iff in Hsk. destruct Hsk as [sk0 [<- Hin]].
      rewrite Forall_forall in Hsocks.
      destruct (String.eqb (sid sk0) (sid socket')).
      -- rewrite Hsid. eapply Hfind; eauto.
      -- now apply Hsocks.
    + destruct (find_socket (sockets s) id); injection Hstep as <- _;
        repeat split; assumption.
    + destruct (find_socket (sockets s) id) as [socket|];
        [|injection Hstep as <- _; repeat split; assumption].
      destruct (place_piece (rooms s) socket roomId x y) as [[rs o]| |] eqn:P;
        try discriminate.
      injection Hstep as <- _. apply place_piece_evolves in P; [|assumption].
      destruct (Hev' _ P). repeat split; assumption.
    + destruct (find_socket (sockets s) id) as [socket|];
        [|injection Hstep as <- _; repeat split; assumption].
      pose proof (@reset_game_evolves (rooms s) socket roomId Hrooms) as E.
      destruct (reset_game (rooms s) socket roomId) as [rs o].
      simpl in E. injection Hstep as <- _.
      destruct (Hev' _ E). repeat split; assumption.
    + destruct (find_socket (sockets s) id) as [socket|];
        [|injection Hstep as <- _; repeat split; assumption].
      pose proof (@disconnect_evolves (rooms s) socket
                    (drop_socket (sockets s) id) Hrooms) as E.
      destruct (disconnect (rooms s) socket (drop_socket (sockets s) id))
        as [rs o].
      simpl in E. injection Hstep as <- _.
      destruct (Hev' _ E). repeat split; try assumption. simpl.
      unfold drop_socket. apply Forall_forall. intros sk Hsk.
      apply filter_In in Hsk. destruct Hsk as [Hin _].
      rewrite Forall_forall in Hsocks. now apply Hsocks.
Qed.

(** * Turn rotation *)

(** A placement that was broadcast without ending the game passed the
    turn. *)
Lemma place_piece_moved_on
      (rooms : JsMap.t Room) (socket : Socket) (roomId : string)
      (room : Room) (x y : Z) (rooms' : JsMap.t Room) (out : list Emit) :
  JsMap.get rooms roomId = Some room -> board_ok room ->
  place_piece rooms socket roomId x y = Done (rooms', out) ->
  moved_on out = true ->
  exists side num,
    playerNum (data_side socket) = Some (side, num) /\
    legal room num x y = true /\
    rooms' =
    JsMap.set rooms roomId
      (with_turn (with_board room (write (board room) x y num))
                 (getOppositeTurn (turn room) (playerCount (settings room)))).
Proof.
  intros Hroom Hok P M.
  destruct (playerNum (data_side socket)) as [[side num]|] eqn:S.
  2:{ rewrite place_piece_spectator in P by assumption.
      injection P as <- <-. discriminate. }
  exists side, num. split; [reflexivity|].
  destruct (legal room num x y) eqn:L.
  - split; [reflexivity|].
    destruct (@place_piece_accepted rooms socket roomId room side num
                Hroom S Hok x y L) as [win [_ P']].
    rewrite P in P'.
    destruct win; [injection P' as -> ->; discriminate|].
    destruct (checkDraw (board (with_board room (write (board room) x y num))));
      injection P' as -> ->; [discriminate | reflexivity].
  - rewrite (@place_piece_rejected rooms socket roomId room side num
               Hroom S Hok x y L) in P.
    injection P as <- <-. discriminate.
Qed.

(** C5.  In a reachable state, the turn of a two-player room is Black
    or White, never Third; and a placement that is accepted without
    ending the game passes the turn Black -> White -> Black with two
    players and Black -> White -> Third -> Black with three. *)
Theorem turn_rotation (s : Server) (roomId : string) (room : Room) :
  reachable s ->
  JsMap.get (rooms s) roomId = Some room ->
  (playerCount (settings room) = 2 -> turn room = 1 \/ turn room = 2) /\
  (forall socket x y rooms' out,
      place_piece (rooms s) socket roomId x y = Done (rooms', out) ->
      moved_on out = true ->
      exists room',
        JsMap.get rooms' roomId = Some room' /\
        settings room' = settings room /\
        (playerCount (settings room) = 2 ->
         (turn room = 1 /\ turn room' = 2) \/
         (turn room = 2 /\ turn room' = 1)) /\
        (playerCount (settings room) = 3 ->
         (turn room = 1 /\ turn room' = 2) \/
         (turn room = 2 /\ turn room' = 3) \/
         (turn room = 3 /\ turn room' = 1))).
Proof.
  intros R G.
  destruct (reachable_inv R) as [Hrooms _].
  destruct (values_get _ _ Hrooms G) as [[T3 T2] [Hok _]].
  split; [exact T2|].
  intros socket x y rooms' out P M.
  destruct (@place_piece_moved_on (rooms s) socket roomId room x y rooms' out
              G Hok P M) as [side [num [_ [_ ->]]]].
  eexists. split; [apply get_set_same|]. split; [reflexivity|].
  simpl. unfold getOppositeTurn. split.
  - intros E. rewrite E. simpl.
    destruct (T2 E) as [-> | ->]; simpl; auto.
  - intros E. rewrite E. simpl.
    destruct T3 as [-> | [-> | ->]]; simpl; auto.
Qed.

Lemma turn_rotation_witness :
  (turn (room_of before_win code) = 1 \/ turn (room_of before_win code) = 2) /\
  exists room',
    JsMap.get (rooms played_on) code = Some room' /\
    turn (room_of before_win code) = 1 /\ turn room' = 2.
Proof.
  destruct (@turn_rotation before_win code (room_of before_win code)
              reachable_before_win ltac:(vm_compute; reflexivity))
    as [Two Rot].
  split; [apply Two; vm_compute; reflexivity|].
  destruct (Rot (socket_of before_win "sock-a") 4 1 (rooms played_on)
                (emits_of (handle before_win (PlacePiece "sock-a" code 4 1)))
                ltac:(vm_compute; reflexivity) ltac:(vm_compute; reflexivity))
    as [room' [G [_ [Alt _]]]].
  exists room'. split; [exact G|].
  destruct (Alt ltac:(vm_compute; reflexivity)) as [H|[H _]].
  - exact H.
  - vm_compute in H. discriminate H.
Defined.

(** * Room codes *)

Lemma retry_spec (rooms : JsMap.t Room) (draws : list string) :
  forall first roomId : string,
    retry rooms first draws = Some roomId ->
    exists pre post : list string,
      first :: draws = (pre ++ roomId :: post)%list /\
      (forall c, In c pre -> JsMap.has rooms c = true) /\
      JsMap.has rooms roomId = false.
Proof.
  induction draws as [|next rest IH]; intros first roomId; simpl;
    destruct (JsMap.has rooms first) eqn:H; try discriminate.
  - intros [= <-]. exists [], []. simpl. repeat split; auto; intros c [].
  - intros T. destruct (IH next roomId T) as [pre [post [E [Hpre Hnew]]]].
    exists (first :: pre), post. simpl. rewrite E. repeat split; auto.
    intros c [<-|Hc]; auto.
  - intros [= <-]. exists [], (next :: rest). simpl.
    repeat split; auto; intros c [].
Qed.

(** The loop ends as soon as [nanoid()] draws a code that is not live. *)
Lemma retry_finds (rooms : JsMap.t Room) (draws : list string) :
  forall first : string,
    (exists c, In c (first :: draws) /\ JsMap.has rooms c = false) ->
    exists roomId, retry rooms first draws = Some roomId.
Proof.
  induction draws as [|next rest IH]; intros first [c [Hin Hc]]; simpl;
    destruct (JsMap.has rooms first) eqn:H; eauto.
  - destruct Hin as [<-|[]]. congruence.
  - apply IH. destruct Hin as [<-|Hin]; [congruence|]. now exists c.
Qed.

(** C9.  In every reachable state the codes of the live rooms are
    pairwise distinct.  A creation answers with a code of the alphabet
    that no live room has, the first such code drawn, and appends the
    new room under it, leaving the codes distinct; it does answer
    whenever one of the codes drawn is not live. *)
Theorem live_codes_distinct
        (s : Server) (body : CreateBody) (first : string)
        (draws : list string) :
  reachable s ->
  event_ok s (PostCreateRoom body first draws) ->
  NoDup (JsMap.keys (rooms s)) /\
  (forall s' out,
      handle s (PostCreateRoom body first draws) = Done (s', out) ->
      exists roomId pre post,
        out = [(HttpReply, room_created roomId)] /\
        is_nanoid roomId = true /\
        first :: draws = (pre ++ roomId :: post)%list /\
        (forall c, In c pre -> In c (JsMap.keys (rooms s))) /\
        ~ In roomId (JsMap.keys (rooms s)) /\
        rooms s' = (rooms s ++ [(roomId, new_room body)])%list /\
        NoDup (JsMap.keys (rooms s'))) /\
  ((exists c, In c (first :: draws) /\ ~ In c (JsMap.keys (rooms s))) ->
   exists s' out, handle s (PostCreateRoom body first draws) = Done (s', out)).
Proof.
  intros R Hev.
  destruct (reachable_inv R) as [_ [Hkeys _]].
  split; [exact Hkeys|]. split.
  - intros s' out H. simpl in H. unfold create_room in H.
    destruct (retry (rooms s) first draws) as [roomId|] eqn:T;
      [|discriminate].
    injection H as <- <-.
    destruct (retry_spec _ _ _ T) as [pre [post [E [Hpre Hnew]]]].
    exists roomId, pre, post. split; [reflexivity|].
    split.
    { unfold event_ok in Hev. rewrite forallb_forall in Hev. apply Hev.
      change (In roomId (first :: draws)). rewrite E.
      apply in_or_app. right. now left. }
    split; [exact E|].
    split; [intros c Hc; apply has_keys; auto|].
    split; [now apply has_false_keys|].
    split; [simpl; now apply set_absent|].
    simpl. now apply NoDup_keys_set.
  - intros [c [Hin Hc]].
    destruct (@retry_finds (rooms s) draws first) as [roomId T].
    { exists c. split; [exact Hin|]. now apply has_false_keys. }
    simpl. unfold create_room. rewrite T. eauto.
Qed.

Lemma live_codes_distinct_witness :
  NoDup (JsMap.keys (rooms before_win)) /\
  exists s',
    handle before_win create_trio =
    Done (s', [(HttpReply, room_created "TRK345")]) /\
    JsMap.keys (rooms s') = [code; "TRK345"].
Proof.
  destruct (@live_codes_distinct before_win trio_body code ["TRK345"]
              reachable_before_win ltac:(vm_compute; reflexivity))
    as [Distinct [Fresh Answers]].
  split; [exact Distinct|].
  destruct Answers as [s' [out H]].
  { exists "TRK345". split; [right; left; reflexivity|].
    vm_compute. intros [H|[]]. discriminate H. }
  destruct (Fresh s' out H) as [roomId [pre [post [-> _]]]].
  exists s'. vm_compute in H. injection H as <- <-.
  split; vm_compute; reflexivity.
Defined.

(** * Seat assignment *)

Lemma truthy_seat (seat : option string) :
  seat <> Some EmptyString ->
  truthy seat = match seat with Some _ => true | None => false end.
Proof.
  destruct seat as [id|]; simpl; auto.
  intros H. destruct (String.eqb id EmptyString) eqn:E; auto.
  apply String.eqb_eq in E. congruence.
Qed.

Lemma Side_eq_dec (a b : Side) : {a = b} + {a <> b}.
Proof. decide equality. Defined.

Ltac seat_case :=
  split; [reflexivity|];
  split; [intros Hs; try (exfalso; apply Hs; reflexivity); split; reflexivity|];
  split; [intros Hs; try discriminate Hs; reflexivity|];
  intros [] Hne; simpl; try reflexivity; exfalso; apply Hne; reflexivity.

(** The assignment of the source is the first free seat of the
    specification, and only that seat changes hands. *)
Lemma assign_spec (room : Room) (id : string) :
  seats_ok room ->
  let side := first_free_seat (players room) (playerCount (settings room)) in
  let ps := fst (assign room id) in
  snd (assign room id) = side /\
  (side <> spectator ->
   occupant (players room) side = None /\ occupant ps side = Some id) /\
  (side = spectator -> ps = players room) /\
  (forall seat, seat <> side -> occupant ps seat = occupant (players room) seat).
Proof.
  intros [Sb [Sw St]]. unfold assign, first_free_seat.
  rewrite (truthy_seat Sb), (truthy_seat Sw), (truthy_seat St).
  destruct (players room) as [b w t]. simpl in *.
  destruct b as [b|]; simpl; [|seat_case].
  destruct w as [w|]; simpl; [|seat_case].
  destruct (playerCount (settings room) =? 3); destruct t as [t|]; simpl;
    seat_case.
Qed.

(** C6.  A join to a room (one that exists, or the default room that
    the join creates) whose seats hold real socket ids binds the socket
    to the first unoccupied seat in the order Black, White, Third, the
    last only with three players, and to Spectator when none is free;
    the room keeps every occupant it had. *)
Theorem join_room_first_free_seat
        (rooms : JsMap.t Room) (socket : Socket) (roomId : string)
        (room : Room) :
  roomId <> EmptyString ->
  JsMap.get rooms roomId = Some room \/
  (JsMap.get rooms roomId = None /\ room = default_room) ->
  seats_ok room ->
  let side := first_free_seat (players room) (playerCount (settings room)) in
  exists rooms' socket' out room',
    join_room rooms socket roomId = (rooms', socket', out) /\
    JsMap.get rooms' roomId = Some room' /\
    data_side socket' = Some side /\
    data_roomId socket' = Some roomId /\
    In (ToSocket (sid socket),
        joined roomId side (turn room) (board room) (settings room)) out /\
    (side <> spectator ->
     occupant (players room) side = None /\
     occupant (players room') side = Some (sid socket)) /\
    (side = spectator -> players room' = players room) /\
    (forall seat holder,
        occupant (players room) seat = Some holder ->
        occupant (players room') seat = Some holder).
Proof.
  intros Hid Hroom Hseats side.
  destruct (assign_spec (sid socket) Hseats) as [Hside [Htaken [Hwatch Hrest]]].
  fold side in Hside, Htaken, Hwatch, Hrest.
  unfold join_room.
  destruct (String.eqb roomId EmptyString) eqn:E;
    [apply String.eqb_eq in E; contradiction|].
  set (rooms1 := if negb (JsMap.has rooms roomId)
                 then JsMap.set rooms roomId default_room else rooms).
  assert (G : JsMap.get rooms1 roomId = Some room).
  { unfold rooms1, JsMap.has.
    destruct Hroom as [H|[H ->]]; rewrite H; simpl; auto.
    apply get_set_same. }
  rewrite G.
  destruct (assign room (sid socket)) as [ps side'] eqn:A.
  simpl in Hside, Htaken, Hwatch, Hrest. subst side'.
  eexists. eexists. eexists. exists (with_players room ps).
  split; [reflexivity|].
  split; [apply get_set_same|].
  split; [reflexivity|]. split; [reflexivity|].
  split; [simpl; auto|].
  split; [exact Htaken|]. split; [exact Hwatch|].
  intros seat holder H. simpl.
  destruct (Side_eq_dec side spectator) as [Hsp|Hsp].
  - now rewrite (Hwatch Hsp).
  - destruct (Side_eq_dec seat side) as [->|Hne].
    + destruct (Htaken Hsp) as [Hfree _]. congruence.
    + now rewrite (Hrest seat Hne).
Qed.

Lemma join_room_first_free_seat_witness :
  exists rooms' socket' out room',
    join_room (rooms one_seated) (socket_of one_seated "sock-b") code
      = (rooms', socket', out) /\
    JsMap.get rooms' code = Some room' /\
    data_side socket' = Some white /\
    p_black (players room') = Some "sock-a" /\
    p_white (players room') = Some "sock-b".
Proof.
  assert (C0 : code <> EmptyString) by (unfold code; discriminate).
  assert (G0 : JsMap.get (rooms one_seated) code
               = Some (room_of one_seated code)) by (vm_compute; reflexivity).
  assert (S0 : seats_ok (room_of one_seated code))
    by (vm_compute; repeat split; discriminate).
  destruct (@join_room_first_free_seat (rooms one_seated)
              (socket_of one_seated "sock-b") code (room_of one_seated code)
              C0 (or_introl G0) S0)
    as [rooms' [socket' [out [room' [J [G [S [_ [_ [Taken [_ Kept]]]]]]]]]]].
  exists rooms', socket', out, room'.
  split; [exact J|]. split; [exact G|]. split; [exact S|]. split.
  - apply (Kept black). vm_compute. reflexivity.
  - apply (Taken ltac:(vm_compute; discriminate)).
Defined.

(** * Reset *)

Lemma empty_grid_createEmptyBoard (size : Z) :
  empty_grid (createEmptyBoard size) (Z.to_nat size).
Proof.
  unfold empty_grid, createEmptyBoard. split; [apply repeat_length|].
  apply Forall_forall. intros row Hrow. apply repeat_spec in Hrow. subst row.
  split; [apply repeat_length|].
  apply Forall_forall. intros c Hc. now apply repeat_spec in Hc.
Qed.

Lemma index_repeat (A : Type) (v : A) (n : nat) (i : Z) :
  index (repeat v n) i =
  if (0 <=? i) && (i <? Z.of_nat n) then Some v else None.
Proof.
  unfold index. destruct (i <? 0) eqn:E.
  - apply Z.ltb_lt in E.
    destruct (0 <=? i) eqn:E'; [apply Z.leb_le in E'; lia | reflexivity].
  - apply Z.ltb_ge in E.
    destruct (0 <=? i) eqn:E'; [|apply Z.leb_gt in E'; lia]. simpl.
    destruct (i <? Z.of_nat n) eqn:L.
    + apply Z.ltb_lt in L. apply nth_error_repeat. lia.
    + apply Z.ltb_ge in L. apply nth_error_None. rewrite repeat_length. lia.
Qed.

(** The cells of a fresh board: 0 in bounds, [undefined] elsewhere. *)
Lemma cell_createEmptyBoard (size x y : Z) :
  cell (createEmptyBoard size) x y =
  if inBounds x y size then Some 0 else None.
Proof.
  unfold cell, createEmptyBoard, inBounds. rewrite index_repeat.
  destruct (0 <=? y) eqn:Y0; destruct (y <? Z.of_nat (Z.to_nat size)) eqn:Y1;
    simpl.
  - rewrite index_repeat.
    apply Z.leb_le in Y0. apply Z.ltb_lt in Y1.
    destruct (0 <=? x) eqn:X0; destruct (x <? Z.of_nat (Z.to_nat size)) eqn:X1;
      simpl;
      repeat match goal with
             | H : (_ <=? _) = true |- _ => apply Z.leb_le in H
             | H : (_ <=? _) = false |- _ => apply Z.leb_gt in H
             | H : (_ <? _) = true |- _ => apply Z.ltb_lt in H
             | H : (_ <? _) = false |- _ => apply Z.ltb_ge in H
             end.
    + replace (x >=? 0) with true by (symmetry; apply Z.geb_le; lia).
      replace (x <? size) with true by (symmetry; apply Z.ltb_lt; lia).
      replace (y >=? 0) with true by (symmetry; apply Z.geb_le; lia).
      replace (y <? size) with true by (symmetry; apply Z.ltb_lt; lia).
      reflexivity.
    + replace (x <? size) with false by (symmetry; apply Z.ltb_ge; lia).
      now rewrite andb_false_r.
    + replace (x >=? 0) with false; [reflexivity|].
      symmetry. destruct (x >=? 0) eqn:G; [apply Z.geb_le in G; lia | auto].
    + replace (x >=? 0) with false; [reflexivity|].
      symmetry. destruct (x >=? 0) eqn:G; [apply Z.geb_le in G; lia | auto].
  - apply Z.ltb_ge in Y1. apply Z.leb_le in Y0.
    replace (y <? size) with false by (symmetry; apply Z.ltb_ge; lia).
    now rewrite andb_false_r.
  - apply Z.leb_gt in Y0.
    replace (y >=? 0) with false.
    + now rewrite andb_false_r.
    + symmetry. destruct (y >=? 0) eqn:G; [apply Z.geb_le in G; lia | auto].
  - apply Z.leb_gt in Y0.
    replace (y >=? 0) with false.
    + now rewrite andb_false_r.
    + symmetry. destruct (y >=? 0) eqn:G; [apply Z.geb_le in G; lia | auto].
Qed.

(** C7.  On a room that exists, [reset_game] puts an all-empty grid of
    the configured size in place of the board and gives the turn to
    Black; the settings, the seats, the other rooms and the set of
    codes are as before. *)
Theorem reset_game_frame
        (rooms : JsMap.t Room) (socket : Socket) (roomId : string)
        (room : Room) :
  JsMap.get rooms roomId = Some room ->
  exists rooms' out room',
    reset_game rooms socket roomId = (rooms', out) /\
    JsMap.get rooms' roomId = Some room' /\
    empty_grid (board room') (Z.to_nat (boardSize (settings room))) /\
    (forall x y, cell (board room') x y = Some 0 <->
                 inBounds x y (boardSize (settings room)) = true) /\
    turn room' = 1 /\
    settings room' = settings room /\
    players room' = players room /\
    (forall other, other <> roomId ->
                   JsMap.get rooms' other = JsMap.get rooms other) /\
    JsMap.keys rooms' = JsMap.keys rooms.
Proof.
  intros G. unfold reset_game. rewrite G.
  eexists. eexists. eexists. split; [reflexivity|].
  split; [apply get_set_same|]. simpl.
  pose proof (empty_grid_createEmptyBoard (boardSize (settings room)))
    as [Hlen Hrows].
  split; [split; assumption|]. split.
  - intros x y. rewrite inBounds_iff. unfold cell. split.
    + destruct (index (createEmptyBoard (boardSize (settings room))) y)
        as [row|] eqn:R; [|discriminate].
      intros C. pose proof (index_Some _ _ R) as Hy.
      pose proof (index_Some _ _ C) as Hx.
      rewrite Forall_forall in Hrows.
      destruct (Hrows row (@index_In _ _ _ _ R)) as [Hrow _].
      unfold len in *. lia.
    + intros [Hx Hy].
      destruct (@index_defined _ (createEmptyBoard (boardSize (settings room))) y)
        as [row R]; [unfold len; lia|].
      rewrite R. rewrite Forall_forall in Hrows.
      destruct (Hrows row (@index_In _ _ _ _ R)) as [Hrow Hzero].
      destruct (@index_defined _ row x) as [c C]; [unfold len; lia|].
      rewrite C. f_equal. rewrite Forall_forall in Hzero.
      apply Hzero. eapply index_In; eauto.
  - repeat split; auto.
    + intros other Hne. now apply get_set_other.
    + rewrite keys_set. unfold JsMap.has. now rewrite G.
Qed.

Lemma reset_game_frame_witness :
  exists rooms' out room',
    reset_game (rooms won) (socket_of won "sock-b") code = (rooms', out) /\
    JsMap.get rooms' code = Some room' /\
    empty_grid (board room') 15 /\
    turn room' = 1 /\
    settings room' = settings (room_of won code) /\
    players room' = players (room_of won code).
Proof.
  assert (G0 : JsMap.get (rooms won) code = Some (room_of won code))
    by (vm_compute; reflexivity).
  destruct (@reset_game_frame (rooms won) (socket_of won "sock-b") code
              (room_of won code) G0)
    as [rooms' [out [room' [H [G [E [_ [T [S [P _]]]]]]]]]].
  exists rooms', out, room'. repeat split; try assumption; apply E.
Defined.

(** C10.  [reset_game] looks at nothing but the room table: whatever
    socket sends it (a player, a spectator, a socket bound to another
    room or to none) the result is the same.  On a live code the room
    gets a board that is an all-empty grid of the configured size,
    every cell in bounds reading 0 and no other cell existing, and the
    turn goes to Black, while settings and seats stay; that board and
    the room state are broadcast.  On an unknown code nothing is done
    and nothing is sent. *)
Theorem reset_game_any_sender
        (rooms : JsMap.t Room) (socket other : Socket) (roomId : string) :
  reset_game rooms socket roomId = reset_game rooms other roomId /\
  match JsMap.get rooms roomId with
  | Some room =>
      exists rooms' room',
        reset_game rooms socket roomId =
        (rooms',
         [(ToRoom roomId, reset_done (board room') black);
          (ToRoom roomId, room_state (room_view room'))]) /\
        JsMap.get rooms' roomId = Some room' /\
        empty_grid (board room') (Z.to_nat (boardSize (settings room))) /\
        (forall x y, cell (board room') x y = Some 0 <->
                     inBounds x y (boardSize (settings room)) = true) /\
        turn room' = 1 /\
        settings room' = settings room /\
        players room' = players room
  | None => reset_game rooms socket roomId = (rooms, [])
  end.
Proof.
  split; [reflexivity|].
  unfold reset_game. destruct (JsMap.get rooms roomId) as [room|]; [|reflexivity].
  eexists. eexists. split; [reflexivity|].
  split; [apply get_set_same|]. simpl.
  split; [apply empty_grid_createEmptyBoard|].
  split; [|repeat split].
  intros x y. rewrite cell_createEmptyBoard.
  destruct (inBounds x y (boardSize (settings room))); split; auto; discriminate.
Qed.

Lemma reset_game_any_sender_witness :
  reset_game (rooms won) stranger code
  = reset_game (rooms won) (socket_of won "sock-a") code /\
  exists rooms' room',
    reset_game (rooms won) stranger code =
    (rooms',
     [(ToRoom code, reset_done (board room') black);
      (ToRoom code, room_state (room_view room'))]) /\
    JsMap.get rooms' code = Some room' /\
    empty_grid (board room') 15 /\
    cell (board room') 4 0 = Some 0 /\
    turn room' = 1 /\
    settings room' = settings (room_of won code) /\
    players room' = players (room_of won code).
Proof.
  assert (G : JsMap.get (rooms won) code = Some (room_of won code))
    by (vm_compute; reflexivity).
  destruct (@reset_game_any_sender (rooms won) stranger
              (socket_of won "sock-a") code) as [Same Reset].
  rewrite G in Reset.
  destruct Reset as [rooms' [room' [H [G' [E [C [T [S P]]]]]]]].
  split; [exact Same|].
  exists rooms', room'. repeat split; try assumption; try apply E.
  apply C. vm_compute. reflexivity.
Defined.

(** * State refresh *)

(** [get_room_state] answers the asking socket alone, with the two
    first seats and the turn; the third seat and the settings, which
    every other [room_state] carries, are left out. *)
Lemma get_room_state_payload
      (rooms : JsMap.t Room) (socket : Socket) (roomId : string)
      (room : Room) :
  JsMap.get rooms roomId = Some room ->
  exists view,
    get_room_state rooms socket roomId
      = [(ToSocket (sid socket), room_state view)] /\
    rs_black view = rs_black (room_view room) /\
    rs_white view = rs_white (room_view room) /\
    rs_turn view = rs_turn (room_view room) /\
    rs_third view = None /\
    rs_settings view = None /\
    view <> room_view room.
Proof.
  intros G. unfold get_room_state. rewrite G.
  eexists. split; [reflexivity|]. simpl. repeat split. discriminate.
Qed.

(** C8 fails on the code.  In the three-player room with all seats
    taken, the answer to [get_room_state] goes to the asking socket
    only but carries neither the third seat nor the settings, which
    the room state sent after a join, a move, a reset or a disconnect
    does carry. *)
Lemma get_room_state_omits_third_and_settings :
  reachable trio /\
  get_room_state (rooms trio) (socket_of trio "sock-c") "TRK345" =
  [(ToSocket "sock-c",
    room_state {| rs_black := true; rs_white := true; rs_third := None;
                  rs_turn := 1; rs_settings := None |})] /\
  room_view (room_of trio "TRK345") =
  {| rs_black := true; rs_white := true; rs_third := Some true;
     rs_turn := 1;
     rs_settings := Some {| playerCount := 3; winCondition := 5;
                            boardSize := 15 |} |}.
Proof.
  split.
  - destruct (@reachable_run trio_game init reach_init) as [s' [out [H R]]].
    + vm_compute.
      repeat (split; [first [exact I | reflexivity
                             | split; [discriminate | reflexivity]]|]);
        exact I.
    + unfold trio. now rewrite H.
  - split; vm_compute; reflexivity.
Qed.

(** * Every socket event is served *)

(** X17.  Where every number the server receives is an integer (the
    settings of a created room, the coordinates of a placement), no
    socket handler raises or loops in a reachable state: the event
    yields a next state and its messages.  Fractional coordinates or
    sizes, which the source does not refuse, are outside this model. *)
Lemma socket_event_returns (s : Server) (ev : Event) :
  reachable s ->
  (forall body first draws, ev <> PostCreateRoom body first draws) ->
  exists s' out, handle s ev = Done (s', out).
Proof.
  intros R Hev. destruct (reachable_inv R) as [Hrooms _].
  assert (Hboards : Forall board_ok (JsMap.values (rooms s))).
  { eapply Forall_impl; [|exact Hrooms]. intros room [_ [B _]]. exact B. }
  destruct ev as [body first draws|id|id roomId|id roomId|id roomId x y
                  |id roomId|id]; simpl; unfold on_socket.
  - exfalso. now apply (Hev body first draws).
  - destruct (find_socket (sockets s) id); eauto.
  - destruct (find_socket (sockets s) id) as [socket|]; eauto.
    destruct (join_room (rooms s) socket roomId) as [[rs socket'] o]. eauto.
  - destruct (find_socket (sockets s) id); eauto.
  - destruct (find_socket (sockets s) id) as [socket|]; eauto.
    destruct (@place_piece_returns (rooms s) socket roomId x y Hboards)
      as [rs [o P]].
    rewrite P. eauto.
  - destruct (find_socket (sockets s) id) as [socket|]; eauto.
    destruct (reset_game (rooms s) socket roomId) as [rs o]. eauto.
  - destruct (find_socket (sockets s) id) as [socket|]; eauto.
    destruct (disconnect (rooms s) socket (drop_socket (sockets s) id))
      as [rs o].
    eauto.
Qed.

(** * Further properties of the handlers *)

Lemma get_after_set (V : Type) (m : JsMap.t V) (k k' : string) (v : V) :
  JsMap.get (JsMap.set m k v) k' =
  if String.eqb k k' then Some v else JsMap.get m k'.
Proof.
  destruct (String.eqb k k') eqn:E.
  - apply String.eqb_eq in E. subst k'. apply get_set_same.
  - apply String.eqb_neq in E. now apply get_set_other.
Qed.

Lemma get_after_delete (V : Type) (m : JsMap.t V) (k k' : string) :
  JsMap.get (JsMap.delete m k) k' =
  if String.eqb k k' then None else JsMap.get m k'.
Proof.
  destruct (String.eqb k k') eqn:E.
  - apply String.eqb_eq in E. subst k'. apply get_delete_same.
  - induction m as [|[k0 v0] m IH]; simpl; auto.
    destruct (String.eqb k0 k) eqn:E0; simpl.
    + apply String.eqb_eq in E0. subst k0. now rewrite E.
    + now rewrite IH.
Qed.

Lemma vacate_own (seat : option string) (id : string) :
  seat = Some id -> vacate seat id = None.
Proof. intros ->. simpl. now rewrite String.eqb_refl. Qed.

Lemma vacate_other (seat : option string) (id holder : string) :
  seat = Some holder -> holder <> id -> vacate seat id = Some holder.
Proof.
  intros -> Hne. simpl. apply String.eqb_neq in Hne. now rewrite Hne.
Qed.

Lemma vacate_none (seat : option string) (id : string) :
  seat = None -> vacate seat id = None.
Proof. now intros ->. Qed.

(** X1.  When a socket whose [socket.data.roomId] names a live room
    disconnects, every seat of that room it held becomes free, every
    other seat, the board, the turn and the settings stay, and the
    state of the room is broadcast; the room is deleted exactly when no
    other connected socket has joined it; no other room is touched. *)
Theorem disconnect_frees_seats
        (rooms : JsMap.t Room) (socket : Socket) (others : list Socket)
        (roomId : string) (room : Room) :
  data_roomId socket = Some roomId ->
  roomId <> EmptyString ->
  JsMap.get rooms roomId = Some room ->
  exists rooms' room',
    disconnect rooms socket others =
    (rooms', [(ToRoom roomId, room_state (room_view room'))]) /\
    board room' = board room /\ turn room' = turn room /\
    settings room' = settings room /\
    (forall seat,
        occupant (players room) seat = Some (sid socket) ->
        occupant (players room') seat = None) /\
    (forall seat holder,
        occupant (players room) seat = Some holder -> holder <> sid socket ->
        occupant (players room') seat = Some holder) /\
    (forall seat,
        occupant (players room) seat = None ->
        occupant (players room') seat = None) /\
    JsMap.get rooms' roomId =
    (if nobody_in others roomId then None else Some room') /\
    (forall other, other <> roomId ->
                   JsMap.get rooms' other = JsMap.get rooms other).
Proof.
  intros Hdata Hid G. unfold disconnect. rewrite Hdata.
  destruct (String.eqb roomId EmptyString) eqn:E;
    [apply String.eqb_eq in E; contradiction|].
  rewrite G.
  eexists. eexists. split; [reflexivity|].
  simpl. repeat split.
  - intros [] H; simpl in *; auto; now apply vacate_own.
  - intros [] holder H Hne; simpl in *; try discriminate;
      now apply vacate_other.
  - intros [] H; simpl in *; auto; now apply vacate_none.
  - destruct (nobody_in others roomId).
    + apply get_delete_same.
    + apply get_set_same.
  - intros other Hne.
    assert (Hneb : String.eqb roomId other = false)
      by (apply String.eqb_neq; congruence).
    destruct (nobody_in others roomId).
    + now rewrite get_after_delete, get_after_set, Hneb.
    + now rewrite get_after_set, Hneb.
Qed.

Lemma disconnect_frees_seats_witness :
  exists rooms' room',
    disconnect (rooms before_win) (socket_of before_win "sock-a")
               (drop_socket (sockets before_win) "sock-a") =
    (rooms', [(ToRoom code, room_state (room_view room'))]) /\
    p_black (players room') = None /\
    p_white (players room') = Some "sock-b" /\
    JsMap.get rooms' code = Some room'.
Proof.
  assert (C0 : code <> EmptyString) by (unfold code; discriminate).
  destruct (@disconnect_frees_seats (rooms before_win)
              (socket_of before_win "sock-a")
              (drop_socket (sockets before_win) "sock-a")
              code (room_of before_win code)
              ltac:(vm_compute; reflexivity) C0 ltac:(vm_compute; reflexivity))
    as [rooms' [room' [D [_ [_ [_ [Freed [Kept [_ [G _]]]]]]]]]].
  assert (N : nobody_in (drop_socket (sockets before_win) "sock-a") code
              = false) by (vm_compute; reflexivity).
  rewrite N in G.
  exists rooms', room'. split; [exact D|].
  split; [apply (Freed black); vm_compute; reflexivity|].
  split; [apply (Kept white); vm_compute; [reflexivity | discriminate]|].
  exact G.
Defined.

(** What [place_piece] can do to the room table: nothing, or put one
    stone on an empty cell of the addressed room and perhaps pass the
    turn. *)
Lemma place_piece_shape
      (rooms : JsMap.t Room) (socket : Socket) (roomId : string) (x y : Z)
      (rooms' : JsMap.t Room) (out : list Emit) :
  place_piece rooms socket roomId x y = Done (rooms', out) ->
  (rooms' = rooms /\ out = []) \/
  exists room side num t,
    JsMap.get rooms roomId = Some room /\
    playerNum (data_side socket) = Some (side, num) /\
    turn room = num /\
    inBounds x y (boardSize (settings room)) = true /\
    cell (board room) x y = Some 0 /\
    rooms' = JsMap.set rooms roomId
               (with_turn (with_board room (write (board room) x y num)) t) /\
    In (ToRoom roomId, piece_placed x y side) out.
Proof.
  unfold place_piece.
  destruct (JsMap.get rooms roomId) as [room|] eqn:G;
    [|intros [= <- <-]; now left].
  destruct (playerNum (data_side socket)) as [[side num]|] eqn:S;
    [|intros [= <- <-]; now left].
  destruct (turn room =? num) eqn:T; simpl; [|intros [= <- <-]; now left].
  destruct (inBounds x y (boardSize (settings room))) eqn:B; simpl;
    [|intros [= <- <-]; now left].
  destruct (index (board room) y) as [row|] eqn:R; [|discriminate].
  destruct (strict_eq (index row x) (Some 0)) eqn:E; simpl;
    [|intros [= <- <-]; now left].
  assert (C : cell (board room) x y = Some 0).
  { unfold cell. rewrite R. now apply strict_eq_Some. }
  apply Z.eqb_eq in T.
  destruct (checkWin (write (board room) x y num) x y
                     (winCondition (settings room))) as [[|]| |];
    try discriminate.
  - intros [= <- <-]. right. exists room, side, num, (turn room).
    repeat split; auto. simpl. auto.
  - destruct (checkDraw (write (board room) x y num)); intros [= <- <-];
      right.
    + exists room, side, num, (turn room). repeat split; auto. simpl. auto.
    + exists room, side, num,
        (getOppositeTurn (turn room) (playerCount (settings room))).
      repeat split; auto. simpl. auto.
Qed.

Lemma join_room_rooms
      (rooms : JsMap.t Room) (socket : Socket) (roomId : string) :
  roomId <> EmptyString ->
  exists room0 room',
    (JsMap.get rooms roomId = Some room0 \/
     (JsMap.get rooms roomId = None /\ room0 = default_room)) /\
    room' = with_players room0 (fst (assign room0 (sid socket))) /\
    forall k,
      JsMap.get (fst (fst (join_room rooms socket roomId))) k =
      if String.eqb roomId k then Some room' else JsMap.get rooms k.
Proof.
  intros Hid. unfold join_room.
  destruct (String.eqb roomId EmptyString) eqn:E;
    [apply String.eqb_eq in E; contradiction|].
  unfold JsMap.has.
  destruct (JsMap.get rooms roomId) as [room|] eqn:G; simpl negb; cbv iota.
  - rewrite G. destruct (assign room (sid socket)) as [ps side] eqn:A.
    exists room, (with_players room ps). split; [now left|].
    split; [now rewrite A|]. intros k. simpl. apply get_after_set.
  - rewrite get_set_same.
    destruct (assign default_room (sid socket)) as [ps side] eqn:A.
    exists default_room, (with_players default_room ps).
    split; [right; now split|]. split; [now rewrite A|].
    intros k. simpl. rewrite !get_after_set.
    destruct (String.eqb roomId k) eqn:K; auto.
Qed.

(** X2.  A [join_room], a [place_piece] or a [reset_game] addressed to
    one room leaves every other room of the table exactly as it was. *)
Theorem room_isolation
        (rooms : JsMap.t Room) (socket : Socket) (roomId other : string) :
  other <> roomId ->
  JsMap.get (fst (fst (join_room rooms socket roomId))) other
    = JsMap.get rooms other /\
  (forall x y rooms' out,
      place_piece rooms socket roomId x y = Done (rooms', out) ->
      JsMap.get rooms' other = JsMap.get rooms other) /\
  JsMap.get (fst (reset_game rooms socket roomId)) other
    = JsMap.get rooms other.
Proof.
  intros Hne.
  assert (Hneb : String.eqb roomId other = false)
    by (apply String.eqb_neq; congruence).
  split; [|split].
  - destruct (String.eqb roomId EmptyString) eqn:E.
    + unfold join_room. now rewrite E.
    + apply String.eqb_neq in E.
      destruct (@join_room_rooms rooms socket roomId E)
        as [room0 [room' [_ [_ H]]]].
      now rewrite H, Hneb.
  - intros x y rooms' out P.
    destruct (place_piece_shape _ _ _ _ _ P)
      as [[-> _]|[room [side [num [t [_ [_ [_ [_ [_ [-> _]]]]]]]]]]]; auto.
    now rewrite get_after_set, Hneb.
  - unfold reset_game. destruct (JsMap.get rooms roomId); simpl; auto.
    now rewrite get_after_set, Hneb.
Qed.

Lemma room_isolation_witness :
  JsMap.get (fst (fst (join_room (rooms roaming) (socket_of roaming "sock-a")
                                 "TRK345"))) code
    = JsMap.get (rooms roaming) code /\
  JsMap.get (rooms (server_of (handle roaming
                                      (PlacePiece "sock-a" "TRK345" 0 0)))) code
    = JsMap.get (rooms roaming) code /\
  JsMap.get (fst (reset_game (rooms roaming) (socket_of roaming "sock-a")
                             "TRK345")) code
    = JsMap.get (rooms roaming) code.
Proof.
  assert (Hne : code <> "TRK345") by (unfold code; discriminate).
  destruct (@room_isolation (rooms roaming) (socket_of roaming "sock-a")
              "TRK345" code Hne) as [J [P R]].
  split; [exact J|]. split; [|exact R].
  apply (P 0 0 _ (emits_of (handle roaming (PlacePiece "sock-a" "TRK345" 0 0)))).
  vm_compute. reflexivity.
Defined.

Lemma keeps_stones_refl (room room' : Room) :
  board room' = board room -> keeps_stones room room'.
Proof. intros E x y v C _. now rewrite E. Qed.

Lemma keeps_stones_write (room room' : Room) (x y num : Z) :
  cell (board room) x y = Some 0 ->
  board room' = write (board room) x y num ->
  keeps_stones room room'.
Proof.
  intros C0 E x' y' v C Hv. rewrite E.
  assert (Hx : 0 <= x).
  { unfold cell in C0. destruct (index (board room) y); [|discriminate].
    apply index_Some in C0. lia. }
  rewrite cell_write_other; auto.
  intros [= -> ->]. rewrite C0 in C. congruence.
Qed.

(** What one event can do to a room that is there before and after:
    its settings stay, and its stones stay unless the event is a reset. *)
Lemma step_rooms (s : Server) (ev : Event) (s' : Server) (out : list Emit) :
  handle s ev = Done (s', out) ->
  forall k room room',
    JsMap.get (rooms s) k = Some room ->
    JsMap.get (rooms s') k = Some room' ->
    settings room' = settings room /\
    ((forall id roomId, ev <> ResetGame id roomId) -> keeps_stones room room').
Proof.
  intros H k room room' G G'.
  assert (Same : JsMap.get (rooms s) k = JsMap.get (rooms s') k ->
                 settings room' = settings room /\
                 ((forall id roomId, ev <> ResetGame id roomId) ->
                  keeps_stones room room')).
  { intros E. rewrite G, G' in E. injection E as ->.
    split; [reflexivity|]. intros _. now apply keeps_stones_refl. }
  destruct ev as [body first draws|id|id roomId|id roomId|id roomId x y
                  |id roomId|id]; simpl in H; unfold on_socket in H.
  - unfold create_room in H.
    destruct (retry (rooms s) first draws) as [roomId|] eqn:T; [|discriminate].
    injection H as <- _. simpl in G'.
    destruct (retry_spec _ _ _ T) as [_ [_ [_ [_ Hnew]]]].
    rewrite get_after_set in G'.
    destruct (String.eqb roomId k) eqn:K.
    + apply String.eqb_eq in K. subst k.
      unfold JsMap.has in Hnew. rewrite G in Hnew. discriminate.
    + apply Same. simpl. rewrite get_after_set, K. reflexivity.
  - destruct (find_socket (sockets s) id); injection H as <- _;
      now apply Same.
  - destruct (find_socket (sockets s) id) as [socket|];
      [|injection H as <- _; now apply Same].
    destruct (String.eqb roomId EmptyString) eqn:E.
    { unfold join_room in H. rewrite E in H. injection H as <- _.
      now apply Same. }
    apply String.eqb_neq in E.
    destruct (@join_room_rooms (rooms s) socket roomId E)
      as [room0 [room1 [Hroom0 [Hroom1 L]]]].
    destruct (join_room (rooms s) socket roomId) as [[rs socket'] o].
    simpl in L. injection H as <- _. simpl in G'.
    rewrite L in G'. destruct (String.eqb roomId k) eqn:K.
    + apply String.eqb_eq in K. subst k. injection G' as <-.
      destruct Hroom0 as [G0|[G0 _]]; rewrite G0 in G; [|discriminate].
      injection G as ->. subst room1.
      split; [reflexivity|]. intros _. now apply keeps_stones_refl.
    + apply Same. simpl. now rewrite L, K.
  - destruct (find_socket (sockets s) id); injection H as <- _;
      now apply Same.
  - destruct (find_socket (sockets s) id) as [socket|];
      [|injection H as <- _; now apply Same].
    destruct (place_piece (rooms s) socket roomId x y) as [[rs o]| |] eqn:P;
      try discriminate.
    injection H as <- _. simpl in G'.
    destruct (place_piece_shape _ _ _ _ _ P)
      as [[-> _]|[room0 [side [num [t [G0 [_ [_ [_ [C0 [-> _]]]]]]]]]]].
    + now apply Same.
    + rewrite get_after_set in G'. destruct (String.eqb roomId k) eqn:K.
      * apply String.eqb_eq in K. subst k. injection G' as <-.
        rewrite G0 in G. injection G as ->.
        split; [reflexivity|]. intros _.
        now apply (@keeps_stones_write room _ x y num).
      * apply Same. simpl. now rewrite get_after_set, K.
  - destruct (find_socket (sockets s) id) as [socket|];
      [|injection H as <- _; now apply Same].
    unfold reset_game in H.
    destruct (JsMap.get (rooms s) roomId) as [room0|] eqn:G0;
      injection H as <- _; [|now apply Same].
    simpl in G'. rewrite get_after_set in G'.
    destruct (String.eqb roomId k) eqn:K.
    + apply String.eqb_eq in K. subst k. injection G' as <-.
      rewrite G0 in G. injection G as ->.
      split; [reflexivity|]. intros Hev. exfalso. now apply (Hev id roomId).
    + apply Same. simpl. now rewrite get_after_set, K.
  - destruct (find_socket (sockets s) id) as [socket|];
      [|injection H as <- _; now apply Same].
    unfold disconnect in H.
    destruct (data_roomId socket) as [roomId|];
      [|injection H as <- _; now apply Same].
    destruct (String.eqb roomId EmptyString);
      [injection H as <- _; now apply Same|].
    destruct (JsMap.get (rooms s) roomId) as [room0|] eqn:G0;
      [|injection H as <- _; now apply Same].
    injection H as <- _. simpl in G'.
    destruct (String.eqb roomId k) eqn:K.
    + assert (K' := K). apply String.eqb_eq in K'. subst k.
      rewrite G0 in G. injection G as ->.
      destruct (nobody_in (drop_socket (sockets s) id) roomId).
      * rewrite get_delete_same in G'. discriminate.
      * rewrite get_set_same in G'. injection G' as <-.
        split; [reflexivity|]. intros _. now apply keeps_stones_refl.
    + apply Same. simpl.
      destruct (nobody_in (drop_socket (sockets s) id) roomId).
      * now rewrite get_after_delete, get_after_set, K.
      * now rewrite get_after_set, K.
Qed.

(** X3.  No event changes the settings of a room: a room found under
    the same code before and after an event has the player count, win
    condition and board size it had. *)
Theorem settings_never_change
        (s : Server) (ev : Event) (s' : Server) (out : list Emit)
        (roomId : string) (room room' : Room) :
  handle s ev = Done (s', out) ->
  JsMap.get (rooms s) roomId = Some room ->
  JsMap.get (rooms s') roomId = Some room' ->
  settings room' = settings room.
Proof.
  intros H G G'. now destruct (step_rooms _ _ H _ G G').
Qed.

(** X4.  No event but [reset_game] removes or recolours a stone: a
    cell that holds a stone before the event holds the same stone
    after it. *)
Theorem stones_stay_until_reset
        (s : Server) (ev : Event) (s' : Server) (out : list Emit)
        (roomId : string) (room room' : Room) (x y v : Z) :
  handle s ev = Done (s', out) ->
  (forall id code', ev <> ResetGame id code') ->
  JsMap.get (rooms s) roomId = Some room ->
  JsMap.get (rooms s') roomId = Some room' ->
  cell (board room) x y = Some v -> v <> 0 ->
  cell (board room') x y = Some v.
Proof.
  intros H Hev G G' C Hv.
  destruct (step_rooms _ _ H _ G G') as [_ K]. now apply (K Hev).
Qed.

Lemma settings_never_change_witness :
  settings (room_of (server_of (handle before_win (Disconnect "sock-b"))) code)
  = settings (room_of before_win code).
Proof.
  apply (@settings_never_change before_win (Disconnect "sock-b")
           (server_of (handle before_win (Disconnect "sock-b")))
           (emits_of (handle before_win (Disconnect "sock-b"))) code).
  - vm_compute. reflexivity.
  - vm_compute. reflexivity.
  - vm_compute. reflexivity.
Defined.

Lemma stones_stay_until_reset_witness :
  cell (board (room_of played_on code)) 3 0 = Some 1.
Proof.
  apply (@stones_stay_until_reset before_win (PlacePiece "sock-a" code 4 1)
           played_on
           (emits_of (handle before_win (PlacePiece "sock-a" code 4 1)))
           code (room_of before_win code) (room_of played_on code) 3 0 1).
  - vm_compute. reflexivity.
  - intros id code' H. discriminate H.
  - vm_compute. reflexivity.
  - vm_compute. reflexivity.
  - vm_compute. reflexivity.
  - discriminate.
Defined.

(** * Counting the empty cells *)

Lemma count_update (row : list Z) (i : nat) (v : Z) :
  nth_error row i = Some 0 -> v <> 0 ->
  (count_occ Z.eq_dec (update row i v) 0%Z + 1 = count_occ Z.eq_dec row 0%Z)%nat.
Proof.
  revert i. induction row as [|c row IH]; intros [|i] H Hv; simpl in *;
    try discriminate.
  - injection H as ->.
    destruct (Z.eq_dec v 0); [contradiction|].
    destruct (Z.eq_dec 0 0); [lia | contradiction].
  - specialize (IH i H Hv). destruct (Z.eq_dec c 0); lia.
Qed.

Lemma empties_update (b : Board) (j : nat) (row row' : list Z) :
  nth_error b j = Some row ->
  (empties (update b j row') + count_occ Z.eq_dec row 0%Z
   = empties b + count_occ Z.eq_dec row' 0%Z)%nat.
Proof.
  revert j. induction b as [|r b IH]; intros [|j] H; simpl in *;
    try discriminate.
  - injection H as ->. lia.
  - specialize (IH j H). lia.
Qed.

Lemma empties_write (brd : Board) (x y v : Z) :
  cell brd x y = Some 0 -> v <> 0 ->
  (empties (write brd x y v) + 1 = empties brd)%nat.
Proof.
  unfold cell, write. destruct (index brd y) as [row|] eqn:R; [|discriminate].
  intros C Hv. unfold index in R, C.
  destruct (y <? 0); [discriminate|]. destruct (x <? 0); [discriminate|].
  pose proof (empties_update _ _ (update row (Z.to_nat x) v) R).
  pose proof (count_update _ _ C Hv). lia.
Qed.

(** X5.  A [place_piece] that emits anything has put exactly one stone
    on the board of the addressed room: the cell was empty and now
    holds the number of the sender's side, every other cell reads as
    before, and the board has one empty cell less. *)
Theorem placement_fills_one_cell
        (rooms : JsMap.t Room) (socket : Socket) (roomId : string)
        (room : Room) (x y : Z) (rooms' : JsMap.t Room) (out : list Emit) :
  JsMap.get rooms roomId = Some room ->
  place_piece rooms socket roomId x y = Done (rooms', out) ->
  out <> [] ->
  exists room' side num,
    JsMap.get rooms' roomId = Some room' /\
    playerNum (data_side socket) = Some (side, num) /\
    cell (board room) x y = Some 0 /\
    cell (board room') x y = Some num /\
    num <> 0 /\
    (forall x' y', (x', y') <> (x, y) ->
                   cell (board room') x' y' = cell (board room) x' y') /\
    (empties (board room') + 1 = empties (board room))%nat.
Proof.
  intros G P Hout.
  destruct (place_piece_shape _ _ _ _ _ P)
    as [[_ ->]|[room0 [side [num [t [G0 [S [_ [_ [C0 [-> _]]]]]]]]]]];
    [contradiction|].
  rewrite G0 in G. injection G as ->.
  destruct (playerNum_side _ S) as [_ [Hnum _]].
  assert (Hx : 0 <= x).
  { unfold cell in C0. destruct (index (board room) y); [|discriminate].
    apply index_Some in C0. lia. }
  eexists. exists side, num. split; [apply get_set_same|]. simpl.
  split; [exact S|]. split; [exact C0|].
  split; [eapply cell_write_same; eauto|].
  split; [lia|]. split.
  - intros x' y' Hne. now apply cell_write_other.
  - apply empties_write; [exact C0 | lia].
Qed.

Lemma placement_fills_one_cell_witness :
  exists room' side num,
    JsMap.get (rooms played_on) code = Some room' /\
    playerNum (data_side (socket_of before_win "sock-a")) = Some (side, num) /\
    cell (board (room_of before_win code)) 4 1 = Some 0 /\
    cell (board room') 4 1 = Some num /\
    num <> 0 /\
    (forall x' y', (x', y') <> (4, 1) ->
                   cell (board room') x' y'
                   = cell (board (room_of before_win code)) x' y') /\
    (empties (board room') + 1 = empties (board (room_of before_win code)))%nat.
Proof.
  apply (@placement_fills_one_cell (rooms before_win)
           (socket_of before_win "sock-a") code (room_of before_win code) 4 1
           (rooms played_on)
           (emits_of (handle before_win (PlacePiece "sock-a" code 4 1)))).
  - vm_compute. reflexivity.
  - vm_compute. reflexivity.
  - vm_compute. discriminate.
Defined.

(** * More on win detection *)

(** At a stone, [checkWin] compares the count of each direction with
    the threshold. *)
Lemma checkWin_stone (brd : Board) (x y wc v : Z) :
  cell brd x y = Some v -> v <> 0 ->
  checkWin brd x y wc =
  Done (existsb (fun d => run_length brd (Some v) x y d >=? wc) dirs).
Proof.
  intros C Hv. unfold checkWin. unfold cell in C.
  destruct (index brd y) as [row|]; [|discriminate].
  rewrite C. simpl strict_eq.
  destruct (v =? 0) eqn:E; [apply Z.eqb_eq in E; contradiction|].
  apply checkWin_dirs_Done, dirs_unit.
Qed.

(** A run seen from another of its cells is the same run. *)
Lemma run_through_shift (brd : Board) (x y v : Z) (d : Direction) (a b k : Z) :
  0 <= a -> 0 <= b -> - b <= k <= a ->
  (forall j : Z, - b <= j <= a ->
     cell brd (x + j * fst (delta d)) (y + j * snd (delta d)) = Some v) ->
  run_through brd (x + k * fst (delta d)) (y + k * snd (delta d)) v d
              (a + b + 1).
Proof.
  intros Ha Hb Hk Hall. exists (a - k), (b + k).
  split; [lia|]. split; [lia|]. split; [lia|].
  intros j Hj.
  replace (x + k * fst (delta d) + j * fst (delta d))
    with (x + (k + j) * fst (delta d)) by ring.
  replace (y + k * snd (delta d) + j * snd (delta d))
    with (y + (k + j) * snd (delta d)) by ring.
  apply Hall. lia.
Qed.

(** X6.  Win detection does not depend on which stone of a line was
    placed last: on a grid, if the cells from [b] steps before [(x, y)]
    to [a] steps after it along a direction all hold the stone [v] and
    are at least [winCondition] many, [checkWin] returns [true] at
    every one of them. *)
Theorem checkWin_anywhere_on_run
        (brd : Board) (x y v wc : Z) (d : Direction) (a b k : Z) :
  is_grid brd -> v <> 0 ->
  0 <= a -> 0 <= b ->
  (forall j : Z, - b <= j <= a ->
     cell brd (x + j * fst (delta d)) (y + j * snd (delta d)) = Some v) ->
  wc <= a + b + 1 ->
  - b <= k <= a ->
  checkWin brd (x + k * fst (delta d)) (y + k * snd (delta d)) wc = Done true.
Proof.
  intros G Hv Ha Hb Hall Hwc Hk.
  assert (C : cell brd (x + k * fst (delta d)) (y + k * snd (delta d)) = Some v)
    by now apply Hall.
  rewrite (@checkWin_stone brd _ _ wc v C Hv). f_equal.
  apply existsb_exists. exists (delta d). split.
  - apply dirs_delta. now exists d.
  - apply Z.geb_le.
    apply (@run_length_spec brd _ _ v d wc G C).
    exists (a + b + 1). split; [|exact Hwc].
    now apply run_through_shift.
Qed.

Lemma checkWin_anywhere_on_run_witness :
  checkWin five_in_column (7 + (-3) * fst (delta Vertical))
           (11 + (-3) * snd (delta Vertical)) 5 = Done true.
Proof.
  apply (@checkWin_anywhere_on_run five_in_column 7 11 1 5 Vertical 0 4 (-3)).
  - exact is_grid_five_in_column.
  - discriminate.
  - lia.
  - lia.
  - intros j Hj.
    assert (E : j = 0 \/ j = -1 \/ j = -2 \/ j = -3 \/ j = -4) by lia.
    destruct E as [-> | [-> | [-> | [-> | ->]]]]; reflexivity.
  - lia.
  - lia.
Defined.

(** On a grid no run is longer than the side of the board. *)
Lemma run_through_bound (brd : Board) (x y v : Z) (d : Direction) (n : Z) :
  is_grid brd -> run_through brd x y v d n -> n <= len brd.
Proof.
  intros G [a [b [Ha [Hb [-> Hall]]]]].
  pose proof (Hall a ltac:(lia)) as Ca. pose proof (Hall (- b) ltac:(lia)) as Cb.
  apply (@cell_inBounds brd _ _ v G) in Ca.
  apply (@cell_inBounds brd _ _ v G) in Cb.
  apply inBounds_iff in Ca. apply inBounds_iff in Cb.
  destruct d; simpl in *; lia.
Qed.

Lemma run_length_bounds (brd : Board) (x y v : Z) (d : Direction) :
  is_grid brd -> cell brd x y = Some v ->
  1 <= run_length brd (Some v) x y (delta d) <= len brd.
Proof.
  intros G C. split.
  - apply (@run_length_spec brd x y v d 1 G C). exists 1. split; [|lia].
    exists 0, 0. repeat split; try lia.
    intros k Hk. replace k with 0 by lia.
    now rewrite !Z.mul_0_l, !Z.add_0_r.
  - destruct (proj1 (@run_length_spec brd x y v d _ G C) (Z.le_refl _))
      as [n [Hrun Hn]].
    pose proof (@run_through_bound brd x y v d n G Hrun). lia.
Qed.

Lemma board_ok_is_grid (room : Room) :
  board_ok room ->
  is_grid (board room) /\
  len (board room) = Z.max 0 (boardSize (settings room)).
Proof.
  intros [Hl Hrows]. split.
  - unfold is_grid. rewrite Hl. exact Hrows.
  - unfold len. rewrite Hl. lia.
Qed.

(** X7.  The win condition is not validated: in a room whose
    [winCondition] is 1 or less, every accepted placement is at once a
    win of the placing side. *)
Theorem low_threshold_wins_at_once
        (rooms : JsMap.t Room) (socket : Socket) (roomId : string)
        (room : Room) (side : Side) (num x y : Z) :
  JsMap.get rooms roomId = Some room ->
  playerNum (data_side socket) = Some (side, num) ->
  board_ok room ->
  winCondition (settings room) <= 1 ->
  legal room num x y = true ->
  place_piece rooms socket roomId x y =
  Done (JsMap.set rooms roomId (with_board room (write (board room) x y num)),
        [(ToRoom roomId, piece_placed x y side);
         (ToRoom roomId, game_over (Some side) false)]).
Proof.
  intros G S Hok Hwc L.
  destruct (@place_piece_accepted rooms socket roomId room side num
              G S Hok x y L) as [win [W P]].
  simpl in W.
  destruct (playerNum_side _ S) as [_ [Hnum _]].
  assert (C : cell (write (board room) x y num) x y = Some num).
  { apply legal_iff in L. destruct L as [_ [C _]].
    eapply cell_write_same; eauto. }
  destruct (@board_ok_is_grid _ (@board_ok_write room x y num Hok)) as [Gr _].
  simpl in Gr.
  pose proof (@checkWin_stone _ x y (winCondition (settings room)) num C
                ltac:(lia)) as W'.
  rewrite W in W'.
  assert (Hwin : win = true).
  { assert (E : win = existsb
                        (fun d => run_length (write (board room) x y num)
                                             (Some num) x y d
                                  >=? winCondition (settings room)) dirs)
      by congruence.
    rewrite E. apply existsb_exists. exists (delta Horizontal). split.
    - apply dirs_delta. now exists Horizontal.
    - apply Z.geb_le.
      pose proof (@run_length_bounds _ x y num Horizontal Gr C). lia. }
  subst win. exact P.
Qed.

Lemma low_threshold_wins_at_once_witness :
  place_piece (rooms hasty) (socket_of hasty "sock-a") "HST234" 7 7 =
  Done (JsMap.set (rooms hasty) "HST234"
          (with_board (room_of hasty "HST234")
                      (write (board (room_of hasty "HST234")) 7 7 1)),
        [(ToRoom "HST234", piece_placed 7 7 black);
         (ToRoom "HST234", game_over (Some black) false)]).
Proof.
  apply (@low_threshold_wins_at_once (rooms hasty) (socket_of hasty "sock-a")
           "HST234" (room_of hasty "HST234") black 1 7 7).
  - vm_compute. reflexivity.
  - vm_compute. reflexivity.
  - split; [vm_compute; reflexivity | vm_compute; repeat constructor].
  - vm_compute. discriminate.
  - vm_compute. reflexivity.
Defined.

(** X8.  In a room whose [winCondition] is larger than its
    [boardSize], no placement is ever reported as a win. *)
Theorem high_threshold_never_wins
        (rooms : JsMap.t Room) (socket : Socket) (roomId : string)
        (room : Room) (x y : Z) (rooms' : JsMap.t Room) (out : list Emit) :
  JsMap.get rooms roomId = Some room ->
  board_ok room ->
  boardSize (settings room) < winCondition (settings room) ->
  place_piece rooms socket roomId x y = Done (rooms', out) ->
  forall winner draw, ~ In (ToRoom roomId, game_over (Some winner) draw) out.
Proof.
  intros G Hok Hwc P winner draw Hin.
  destruct (playerNum (data_side socket)) as [[side num]|] eqn:S.
  2:{ rewrite place_piece_spectator in P by assumption.
      injection P as _ <-. destruct Hin. }
  destruct (legal room num x y) eqn:L.
  2:{ rewrite (@place_piece_rejected rooms socket roomId room side num
                 G S Hok x y L) in P.
      injection P as _ <-. destruct Hin. }
  destruct (@place_piece_accepted rooms socket roomId room side num
              G S Hok x y L) as [win [W P']].
  simpl in W. rewrite P in P'.
  destruct (playerNum_side _ S) as [_ [Hnum _]].
  assert (C : cell (write (board room) x y num) x y = Some num).
  { pose proof (proj1 (legal_iff _ _ _ _) L) as [_ [C _]].
    eapply cell_write_same; eauto. }
  destruct (@board_ok_is_grid _ (@board_ok_write room x y num Hok))
    as [Gr Hlen].
  simpl in Gr, Hlen.
  assert (Hpos : 0 <= x < boardSize (settings room)).
  { pose proof (proj1 (legal_iff _ _ _ _) L) as [[Hx _] _]. exact Hx. }
  pose proof (@checkWin_stone _ x y (winCondition (settings room)) num C
                ltac:(lia)) as W'.
  rewrite W in W'.
  assert (Hno : win = false).
  { assert (E : win = existsb
                        (fun d => run_length (write (board room) x y num)
                                             (Some num) x y d
                                  >=? winCondition (settings room)) dirs)
      by congruence.
    rewrite E. clear E W W' P'.
    destruct (existsb _ dirs) eqn:E; [|reflexivity].
    apply existsb_exists in E. destruct E as [p [Hp Hge]].
    apply dirs_delta in Hp. destruct Hp as [d <-].
    apply Z.geb_le in Hge.
    pose proof (@run_length_bounds _ x y num d Gr C). lia. }
  subst win.
  destruct (checkDraw (board (with_board room (write (board room) x y num))));
    injection P' as _ ->; simpl in Hin;
    repeat (destruct Hin as [Hin|Hin]; [discriminate Hin|]); exact Hin.
Qed.

Lemma high_threshold_never_wins_witness :
  ~ In (ToRoom "NDL234", game_over (Some black) false)
       (emits_of (handle endless (PlacePiece "sock-a" "NDL234" 7 7))).
Proof.
  apply (@high_threshold_never_wins (rooms endless)
           (socket_of endless "sock-a") "NDL234" (room_of endless "NDL234")
           7 7
           (rooms (server_of (handle endless (PlacePiece "sock-a" "NDL234" 7 7))))
           (emits_of (handle endless (PlacePiece "sock-a" "NDL234" 7 7)))).
  - vm_compute. reflexivity.
  - split; [vm_compute; reflexivity | vm_compute; repeat constructor].
  - vm_compute. reflexivity.
  - vm_compute. reflexivity.
Defined.

(** * Reset, leave and create followed by another event *)

(** X9.  After a [reset_game], whoever sent it, the room is playable
    again: a [place_piece] from a socket of the black side on any cell
    in bounds is accepted, and one from any other socket is turned
    away with no change and no message. *)
Theorem reset_then_black_moves
        (rooms : JsMap.t Room) (sender socket : Socket) (roomId : string)
        (room : Room) (x y : Z) :
  JsMap.get rooms roomId = Some room ->
  inBounds x y (boardSize (settings room)) = true ->
  (data_side socket = Some black ->
   exists rooms2 out,
     place_piece (fst (reset_game rooms sender roomId)) socket roomId x y
       = Done (rooms2, out) /\
     In (ToRoom roomId, piece_placed x y black) out) /\
  (data_side socket <> Some black ->
   place_piece (fst (reset_game rooms sender roomId)) socket roomId x y
     = Done (fst (reset_game rooms sender roomId), [])).
Proof.
  intros G B. unfold reset_game. rewrite G. simpl fst.
  set (room1 := with_turn
                  (with_board room
                     (createEmptyBoard (boardSize (settings room)))) 1).
  assert (G1 : JsMap.get (JsMap.set rooms roomId room1) roomId = Some room1)
    by apply get_set_same.
  assert (Hok : board_ok room1).
  { apply (@board_ok_empty room). reflexivity. }
  split.
  - intros Hside.
    assert (S : playerNum (data_side socket) = Some (black, 1))
      by now rewrite Hside.
    assert (L : legal room1 1 x y = true).
    { unfold legal. simpl. rewrite B, cell_createEmptyBoard, B. reflexivity. }
    destruct (@place_piece_accepted _ socket roomId room1 black 1
                G1 S Hok x y L) as [win [_ P]].
    rewrite P.
    destruct win;
      [|destruct (checkDraw
                    (board (with_board room1 (write (board room1) x y 1))))];
      eexists; eexists; (split; [reflexivity|]); simpl; auto.
  - intros Hside.
    destruct (playerNum (data_side socket)) as [[side num]|] eqn:S.
    + apply (@place_piece_rejected _ socket roomId room1 side num G1 S Hok).
      unfold legal. simpl turn.
      destruct (1 =? num) eqn:T; [|apply andb_false_r].
      apply Z.eqb_eq in T. subst num. exfalso. apply Hside.
      destruct (data_side socket) as [[]|]; simpl in S; congruence.
    + now apply place_piece_spectator.
Qed.

Lemma reset_then_black_moves_witness :
  exists rooms2 out,
    place_piece (fst (reset_game (rooms won) stranger code))
                (socket_of won "sock-a") code 7 7 = Done (rooms2, out) /\
    In (ToRoom code, piece_placed 7 7 black) out.
Proof.
  apply (@reset_then_black_moves (rooms won) stranger (socket_of won "sock-a")
           code (room_of won code) 7 7).
  - vm_compute. reflexivity.
  - vm_compute. reflexivity.
  - vm_compute. reflexivity.
Defined.

(** What [join_room] returns on a room that exists. *)
Lemma join_room_existing
      (rooms : JsMap.t Room) (socket : Socket) (roomId : string)
      (room : Room) :
  roomId <> EmptyString ->
  JsMap.get rooms roomId = Some room ->
  join_room rooms socket roomId =
  (JsMap.set rooms roomId
     (with_players room (fst (assign room (sid socket)))),
   {| sid := sid socket;
      data_roomId := Some roomId;
      data_side := Some (snd (assign room (sid socket)));
      in_rooms := socket_join socket roomId |},
   [(ToSocket (sid socket),
     joined roomId (snd (assign room (sid socket))) (turn room) (board room)
            (settings room));
    (ToRoom roomId,
     room_state
       (room_view (with_players room (fst (assign room (sid socket))))))]).
Proof.
  intros Hid G. unfold join_room.
  destruct (String.eqb roomId EmptyString) eqn:E;
    [apply String.eqb_eq in E; contradiction|].
  unfold JsMap.has. rewrite G. simpl negb. cbv iota. rewrite G.
  destruct (assign room (sid socket)) as [ps side]. reflexivity.
Qed.

(** X10.  A seat left by a disconnecting socket can be claimed: when
    the leaver held a seat, the seats tried before it are held by
    others, and someone is still in the room, the next socket to join
    gets that very seat, and finds the board, the turn and the settings
    as they were. *)
Theorem freed_seat_is_reclaimed
        (rooms : JsMap.t Room) (leaver : Socket) (others : list Socket)
        (roomId : string) (room : Room) (newcomer : Socket) (seat : Side) :
  data_roomId leaver = Some roomId ->
  roomId <> EmptyString ->
  JsMap.get rooms roomId = Some room ->
  seats_ok room ->
  nobody_in others roomId = false ->
  seat <> spectator ->
  (seat = green -> playerCount (settings room) = 3) ->
  occupant (players room) seat = Some (sid leaver) ->
  (forall earlier, In earlier (seats_before seat) ->
     exists holder,
       occupant (players room) earlier = Some holder /\ holder <> sid leaver) ->
  exists rooms2 newcomer' out room2,
    join_room (fst (disconnect rooms leaver others)) newcomer roomId
      = (rooms2, newcomer', out) /\
    data_side newcomer' = Some seat /\
    JsMap.get rooms2 roomId = Some room2 /\
    occupant (players room2) seat = Some (sid newcomer) /\
    board room2 = board room /\ turn room2 = turn room /\
    settings room2 = settings room.
Proof.
  intros Hdata Hid G Hseats Hsome Hplay Hthree Hheld Hearlier.
  unfold disconnect. rewrite Hdata.
  destruct (String.eqb roomId EmptyString) eqn:E;
    [apply String.eqb_eq in E; contradiction|].
  rewrite G, Hsome. simpl fst.
  set (vacated :=
         with_players room
           {| p_black := vacate (p_black (players room)) (sid leaver);
              p_white := vacate (p_white (players room)) (sid leaver);
              p_third := vacate (p_third (players room)) (sid leaver) |}).
  assert (G1 : JsMap.get (JsMap.set rooms roomId vacated) roomId = Some vacated)
    by apply get_set_same.
  rewrite (@join_room_existing _ newcomer roomId vacated Hid G1).
  assert (Hseats1 : seats_ok vacated).
  { destruct Hseats as [Sb [Sw St]]. repeat split; simpl; now apply vacate_ok. }
  destruct (@assign_spec vacated (sid newcomer) Hseats1)
    as [Hside [Htaken _]].
  assert (Hfree : first_free_seat (players vacated)
                                  (playerCount (settings vacated)) = seat).
  { unfold first_free_seat. simpl.
    destruct seat; simpl in *; try contradiction.
    - now rewrite (vacate_own Hheld).
    - destruct (Hearlier black (or_introl eq_refl)) as [hb [Hb Hbn]].
      simpl in Hb.
      now rewrite (vacate_other Hb Hbn), (vacate_own Hheld).
    - destruct (Hearlier black (or_introl eq_refl)) as [hb [Hb Hbn]].
      destruct (Hearlier white (or_intror (or_introl eq_refl)))
        as [hw [Hw Hwn]].
      simpl in Hb, Hw.
      rewrite (vacate_other Hb Hbn), (vacate_other Hw Hwn), (vacate_own Hheld).
      now rewrite (Hthree eq_refl). }
  rewrite Hfree in Hside, Htaken.
  eexists. eexists. eexists. eexists. split; [reflexivity|]. simpl.
  split; [now rewrite Hside|].
  split; [apply get_set_same|]. simpl.
  split; [apply (Htaken Hplay)|]. repeat split.
Qed.

Lemma freed_seat_is_reclaimed_witness :
  exists rooms2 newcomer' out room2,
    join_room (fst (disconnect (rooms before_win)
                               (socket_of before_win "sock-b")
                               (drop_socket (sockets before_win) "sock-b")))
              stranger code
      = (rooms2, newcomer', out) /\
    data_side newcomer' = Some white /\
    JsMap.get rooms2 code = Some room2 /\
    occupant (players room2) white = Some (sid stranger) /\
    board room2 = board (room_of before_win code) /\
    turn room2 = turn (room_of before_win code) /\
    settings room2 = settings (room_of before_win code).
Proof.
  assert (C0 : code <> EmptyString) by (unfold code; discriminate).
  apply (@freed_seat_is_reclaimed (rooms before_win)
           (socket_of before_win "sock-b")
           (drop_socket (sockets before_win) "sock-b")
           code (room_of before_win code) stranger white).
  - vm_compute. reflexivity.
  - exact C0.
  - vm_compute. reflexivity.
  - vm_compute. repeat split; discriminate.
  - vm_compute. reflexivity.
  - discriminate.
  - discriminate.
  - vm_compute. reflexivity.
  - intros earlier [<-|[]]. exists "sock-a". split.
    + vm_compute. reflexivity.
    + vm_compute. discriminate.
Defined.

Lemma is_nanoid_nonempty (s : string) :
  is_nanoid s = true -> s <> EmptyString.
Proof. intros H ->. discriminate H. Qed.

(** X11.  A room created by [POST /api/create-room] is found by the
    first [join_room] with the code that was answered: the joiner is
    seated as Black and is sent the settings that were asked for (2
    players, 5 in a row, 15 x 15 where the request left them out), an
    empty board of that size, and Black to move. *)
Theorem create_then_join
        (rooms : JsMap.t Room) (body : CreateBody) (first : string)
        (draws : list string) (rooms1 : JsMap.t Room) (out1 : list Emit)
        (socket : Socket) :
  forallb is_nanoid (first :: draws) = true ->
  create_room rooms body first draws = Done (rooms1, out1) ->
  exists roomId rooms2 socket' out2 room2,
    out1 = [(HttpReply, room_created roomId)] /\
    join_room rooms1 socket roomId = (rooms2, socket', out2) /\
    data_side socket' = Some black /\
    In (ToSocket (sid socket),
        joined roomId black 1
               (createEmptyBoard (or_default (b_boardSize body) 15))
               {| playerCount := or_default (b_playerCount body) 2;
                  winCondition := or_default (b_winCondition body) 5;
                  boardSize := or_default (b_boardSize body) 15 |}) out2 /\
    JsMap.get rooms2 roomId = Some room2 /\
    players room2 =
    {| p_black := Some (sid socket); p_white := None; p_third := None |}.
Proof.
  intros Hdraws Hcreate. unfold create_room in Hcreate.
  destruct (retry rooms first draws) as [roomId|] eqn:T; [|discriminate].
  injection Hcreate as <- <-.
  destruct (retry_spec _ _ _ T) as [pre [post [E _]]].
  assert (Hid : roomId <> EmptyString).
  { apply is_nanoid_nonempty. rewrite forallb_forall in Hdraws.
    apply Hdraws. rewrite E. apply in_or_app. right. now left. }
  assert (G : JsMap.get (JsMap.set rooms roomId (new_room body)) roomId
              = Some (new_room body)) by apply get_set_same.
  exists roomId. rewrite (@join_room_existing _ socket roomId _ Hid G).
  eexists. eexists. eexists. eexists.
  split; [reflexivity|]. split; [reflexivity|]. simpl.
  split; [reflexivity|]. split; [now left|].
  split; [apply get_set_same|]. reflexivity.
Qed.

Lemma create_then_join_witness :
  exists roomId rooms2 socket' out2 room2,
    emits_of (handle before_win create_trio)
      = [(HttpReply, room_created roomId)] /\
    join_room (rooms (server_of (handle before_win create_trio)))
              stranger roomId = (rooms2, socket', out2) /\
    data_side socket' = Some black /\
    In (ToSocket (sid stranger),
        joined roomId black 1 (createEmptyBoard 19)
               {| playerCount := 3; winCondition := 6; boardSize := 19 |})
       out2 /\
    JsMap.get rooms2 roomId = Some room2 /\
    players room2 =
    {| p_black := Some (sid stranger); p_white := None; p_third := None |}.
Proof.
  apply (@create_then_join (rooms before_win) trio_body code ["TRK345"]
           (rooms (server_of (handle before_win create_trio)))
           (emits_of (handle before_win create_trio)) stranger).
  - vm_compute. reflexivity.
  - vm_compute. reflexivity.
Defined.

(** X12.  Where every board size the server receives is an integer,
    in every reachable state the board of every room is a square grid
    whose side is the room's [boardSize] (or empty when that is
    negative), so the integer coordinates that [inBounds] accepts are
    exactly the cells that can be read.  A fractional size, which the
    source does not refuse, is outside this model. *)
Theorem reachable_board_size (s : Server) (roomId : string) (room : Room) :
  reachable s ->
  JsMap.get (rooms s) roomId = Some room ->
  is_grid (board room) /\
  len (board room) = Z.max 0 (boardSize (settings room)) /\
  (forall x y,
      inBounds x y (boardSize (settings room)) = true <->
      exists v, cell (board room) x y = Some v).
Proof.
  intros R G. destruct (reachable_inv R) as [Hrooms _].
  destruct (values_get _ _ Hrooms G) as [_ [Hok _]].
  destruct (board_ok_is_grid Hok) as [Gr Hlen].
  split; [exact Gr|]. split; [exact Hlen|].
  intros x y. split.
  - intros B. destruct (@board_ok_cell room x y Hok B) as [row [u [Hr Hc]]].
    exists u. unfold cell. now rewrite Hr.
  - intros [v C]. apply (@cell_inBounds _ _ _ v Gr) in C.
    apply inBounds_iff in C. apply inBounds_iff. lia.
Qed.

Lemma reachable_board_size_witness :
  is_grid (board (room_of before_win code)) /\
  len (board (room_of before_win code)) = 15.
Proof.
  destruct (@reachable_board_size before_win code (room_of before_win code)
              reachable_before_win ltac:(vm_compute; reflexivity))
    as [Gr [Hlen _]].
  split; [exact Gr | exact Hlen].
Defined.

Lemma socket_event_returns_witness :
  exists s' out, handle won (PlacePiece "sock-a" code 5 0) = Done (s', out).
Proof.
  apply (@socket_event_returns won (PlacePiece "sock-a" code 5 0)).
  - exact reachable_won.
  - intros body first draws H. discriminate H.
Defined.

(** * The client against the server *)

Lemma index_map (A B : Type) (f : A -> B) (a : list A) (i : Z) :
  index (map f a) i = option_map f (index a i).
Proof.
  unfold index. destruct (i <? 0); [reflexivity|]. apply nth_error_map.
Qed.

Lemma map_update (A B : Type) (f : A -> B) (a : list A) (i : nat) (v : A) :
  map f (update a i v) = update (map f a) i (f v).
Proof.
  revert i. induction a as [|h a IH]; intros [|i]; simpl; auto.
  now rewrite IH.
Qed.

(** Inside the row, the JavaScript assignment is a plain replacement. *)
Lemma store_inside (row : list ClientCell) (i : nat) (v : ClientCell) :
  (i < List.length row)%nat -> store row i v = update row i v.
Proof.
  revert i. induction row as [|h row IH]; intros [|i] H; simpl in *;
    try lia; auto.
  rewrite IH by lia. reflexivity.
Qed.

Lemma cell_of_joined_num (o : option Side) (side : Side) (num : Z) :
  playerNum o = Some (side, num) ->
  cell_of_joined num = Filled (symbol_of_player side).
Proof.
  destruct o as [[]|]; simpl; intros [= <- <-]; reflexivity.
Qed.

Lemma board_of_joined_write (brd : Board) (x y num u : Z) (side : Side) :
  cell brd x y = Some u ->
  cell_of_joined num = Filled (symbol_of_player side) ->
  on_piece_placed (board_of_joined brd) x y side
  = Done (board_of_joined (write brd x y num)).
Proof.
  intros C Hnum. unfold on_piece_placed, board_of_joined, write, cell in *.
  rewrite index_map.
  destruct (index brd y) as [row|] eqn:R; [|discriminate]. simpl.
  pose proof (index_Some _ _ C) as Hx.
  destruct (x <? 0) eqn:E; [apply Z.ltb_lt in E; lia|].
  rewrite store_inside by (rewrite length_map; unfold len in Hx; lia).
  now rewrite map_update, map_update, Hnum.
Qed.

(** X13.  A client board that mirrors the room's board still mirrors
    it after an accepted placement: applying the [piece_placed]
    message that [place_piece] broadcasts to the client's board gives
    the conversion of the room's new board, with no TypeError and no
    hole. *)
Theorem client_board_follows_server
        (rooms : JsMap.t Room) (socket : Socket) (roomId : string)
        (room : Room) (x y : Z) (rooms' : JsMap.t Room) (out : list Emit) :
  JsMap.get rooms roomId = Some room ->
  place_piece rooms socket roomId x y = Done (rooms', out) ->
  out <> [] ->
  exists room' side,
    In (ToRoom roomId, piece_placed x y side) out /\
    JsMap.get rooms' roomId = Some room' /\
    on_piece_placed (board_of_joined (board room)) x y side
    = Done (board_of_joined (board room')).
Proof.
  intros G P Hout.
  destruct (place_piece_shape _ _ _ _ _ P)
    as [[_ ->]|[room0 [side [num [t [G0 [S [_ [_ [C0 [-> Hin]]]]]]]]]]];
    [contradiction|].
  rewrite G0 in G. injection G as ->.
  eexists. exists side. split; [exact Hin|].
  split; [apply get_set_same|]. simpl.
  apply (@board_of_joined_write _ x y num 0 side C0).
  eapply cell_of_joined_num; eauto.
Qed.

Lemma client_board_follows_server_witness :
  exists room' side,
    In (ToRoom code, piece_placed 4 1 side)
       (emits_of (handle before_win (PlacePiece "sock-a" code 4 1))) /\
    JsMap.get (rooms played_on) code = Some room' /\
    on_piece_placed (board_of_joined (board (room_of before_win code))) 4 1 side
    = Done (board_of_joined (board room')).
Proof.
  apply (@client_board_follows_server (rooms before_win)
           (socket_of before_win "sock-a") code (room_of before_win code) 4 1
           (rooms played_on)
           (emits_of (handle before_win (PlacePiece "sock-a" code 4 1)))).
  - vm_compute. reflexivity.
  - vm_compute. reflexivity.
  - vm_compute. discriminate.
Defined.

Lemma map_repeat (A B : Type) (f : A -> B) (v : A) (n : nat) :
  map f (repeat v n) = repeat (f v) n.
Proof. induction n as [|n IH]; simpl; congruence. Qed.

(** X14.  The board that [reset_game] broadcasts in [reset_done] is
    turned by the client, whose conversion there has no case for the
    third player, into the all-[null] board of the room's size: the
    same board a socket joining at that moment builds. *)
Theorem reset_board_on_client
        (rooms : JsMap.t Room) (socket : Socket) (roomId : string)
        (room : Room) :
  JsMap.get rooms roomId = Some room ->
  exists b room',
    In (ToRoom roomId, reset_done b black)
       (snd (reset_game rooms socket roomId)) /\
    JsMap.get (fst (reset_game rooms socket roomId)) roomId = Some room' /\
    board room' = b /\
    board_of_reset b = board_of_joined b /\
    board_of_reset b =
    repeat (repeat Null (Z.to_nat (boardSize (settings room))))
           (Z.to_nat (boardSize (settings room))).
Proof.
  intros G. unfold reset_game. rewrite G. simpl.
  eexists. eexists. split; [left; reflexivity|].
  split; [apply get_set_same|]. split; [reflexivity|].
  unfold board_of_reset, board_of_joined, createEmptyBoard.
  rewrite !map_repeat. simpl. auto.
Qed.

Lemma reset_board_on_client_witness :
  exists b room',
    In (ToRoom "TRK345", reset_done b black)
       (snd (reset_game (rooms trio) stranger "TRK345")) /\
    JsMap.get (fst (reset_game (rooms trio) stranger "TRK345")) "TRK345"
      = Some room' /\
    board room' = b /\
    board_of_reset b = board_of_joined b /\
    board_of_reset b = repeat (repeat Null 15%nat) 15%nat.
Proof.
  apply (@reset_board_on_client (rooms trio) stranger "TRK345"
           (room_of trio "TRK345")).
  vm_compute. reflexivity.
Defined.

(** X15.  The answer to [get_room_state] makes the client believe that
    not all players are connected, whatever the room: the test of the
    [room_state] handler is false on it, so [isMyTurn] becomes false
    and clicks are blocked; on the room state that the other handlers
    broadcast the same test is true exactly when Black and White are
    seated and the room has two players or its third seat is taken. *)
Theorem refresh_reports_players_missing
        (rooms : JsMap.t Room) (socket : Socket) (roomId : string)
        (room : Room) :
  JsMap.get rooms roomId = Some room ->
  exists view,
    get_room_state rooms socket roomId
      = [(ToSocket (sid socket), room_state view)] /\
    all_connected view = false /\
    (forall mySide currentPlayer,
        is_my_turn mySide currentPlayer (all_connected view) = false) /\
    (all_connected (room_view room) = true <->
     truthy (p_black (players room)) = true /\
     truthy (p_white (players room)) = true /\
     (playerCount (settings room) = 2 \/
      (playerCount (settings room) = 3 /\
       truthy (p_third (players room)) = true))).
Proof.
  intros G. unfold get_room_state. rewrite G.
  eexists. split; [reflexivity|].
  assert (Hfalse : forall b w t,
             all_connected {| rs_black := b; rs_white := w; rs_third := None;
                              rs_turn := t; rs_settings := None |} = false).
  { intros b w t. unfold all_connected. simpl. apply andb_false_r. }
  split; [apply Hfalse|]. split.
  - intros [side|] cp; simpl; auto. now rewrite Hfalse.
  - unfold all_connected, room_view. simpl.
    rewrite !andb_true_iff, orb_true_iff, Z.eqb_eq.
    destruct (playerCount (settings room) =? 3) eqn:E.
    + apply Z.eqb_eq in E. intuition lia.
    + apply Z.eqb_neq in E. intuition (try discriminate; try lia).
Qed.

Lemma refresh_reports_players_missing_witness :
  exists view,
    get_room_state (rooms before_win) (socket_of before_win "sock-a") code
      = [(ToSocket "sock-a", room_state view)] /\
    all_connected view = false /\
    all_connected (room_view (room_of before_win code)) = true.
Proof.
  destruct (@refresh_reports_players_missing (rooms before_win)
              (socket_of before_win "sock-a") code (room_of before_win code)
              ltac:(vm_compute; reflexivity))
    as [view [H [F [_ A]]]].
  exists view. split; [exact H|]. split; [exact F|].
  apply A. vm_compute. repeat split. now left.
Defined.

(** X16.  In a reachable state, a client that is told the room's turn
    and that all players are connected takes the turn for its own
    exactly when the server's turn test would pass for its side. *)
Theorem client_turn_agrees
        (s : Server) (roomId : string) (room : Room) (side : Side) (num : Z) :
  reachable s ->
  JsMap.get (rooms s) roomId = Some room ->
  playerNum (Some side) = Some (side, num) ->
  is_my_turn (Some side) (current_player (turn room)) true = true <->
  turn room = num.
Proof.
  intros R G S. destruct (reachable_inv R) as [Hrooms _].
  destruct (values_get _ _ Hrooms G) as [[T3 _] _].
  unfold is_my_turn, current_player.
  destruct side; simpl in S; try discriminate; injection S as <-;
    destruct T3 as [-> | [-> | ->]]; simpl; split; intros H;
    try reflexivity; try discriminate; try lia.
Qed.

Lemma client_turn_agrees_witness :
  is_my_turn (Some black)
             (current_player (turn (room_of before_win code))) true = true <->
  turn (room_of before_win code) = 1.
Proof.
  apply (@client_turn_agrees before_win code (room_of before_win code) black 1).
  - exact reachable_before_win.
  - vm_compute. reflexivity.
  - reflexivity.
Defined.

(** * A seated socket keeps its seat *)

Lemma bound_ok_kept (rooms rooms' : JsMap.t Room) (socket : Socket) :
  seats_kept rooms rooms' -> bound_ok rooms socket -> bound_ok rooms' socket.
Proof.
  intros K B roomId side Hr Hs Hp.
  destruct (B roomId side Hr Hs Hp) as [Hin [room [G O]]].
  split; [exact Hin|].
  destruct (K _ _ G) as [room' [G' O']]. exists room'. split; auto.
Qed.

Lemma seats_kept_refl (rooms : JsMap.t Room) : seats_kept rooms rooms.
Proof. intros k room G. exists room. split; auto. Qed.

Lemma seats_kept_set (rooms : JsMap.t Room) (roomId : string) (room' : Room) :
  (forall room, JsMap.get rooms roomId = Some room ->
                forall seat holder,
                  occupant (players room) seat = Some holder ->
                  occupant (players room') seat = Some holder) ->
  seats_kept rooms (JsMap.set rooms roomId room').
Proof.
  intros H k room G. rewrite get_after_set.
  destruct (String.eqb roomId k) eqn:K.
  - apply String.eqb_eq in K. subst k. exists room'. split; eauto.
  - exists room. split; auto.
Qed.

Lemma place_piece_seats_kept
      (rooms : JsMap.t Room) (socket : Socket) (roomId : string) (x y : Z)
      (rooms' : JsMap.t Room) (out : list Emit) :
  place_piece rooms socket roomId x y = Done (rooms', out) ->
  seats_kept rooms rooms'.
Proof.
  intros P.
  destruct (place_piece_shape _ _ _ _ _ P)
    as [[-> _]|[room0 [side [num [t [G0 [_ [_ [_ [_ [-> _]]]]]]]]]]].
  - apply seats_kept_refl.
  - apply seats_kept_set. intros room G. rewrite G0 in G.
    injection G as <-. auto.
Qed.

Lemma join_room_seats_kept
      (rooms : JsMap.t Room) (socket : Socket) (roomId : string) :
  Forall room_inv (JsMap.values rooms) ->
  seats_kept rooms (fst (fst (join_room rooms socket roomId))).
Proof.
  intros Hinv.
  destruct (String.eqb roomId EmptyString) eqn:E.
  { unfold join_room. rewrite E. apply seats_kept_refl. }
  apply String.eqb_neq in E.
  destruct (@join_room_rooms rooms socket roomId E)
    as [room0 [room1 [Hroom0 [Hroom1 L]]]].
  intros k room G. rewrite L.
  destruct (String.eqb roomId k) eqn:K; [|exists room; split; auto].
  apply String.eqb_eq in K. subst k. exists room1. split; [reflexivity|].
  destruct Hroom0 as [G0|[G0 _]]; rewrite G0 in G; [|discriminate].
  injection G as ->. subst room1. simpl.
  destruct (values_get _ _ Hinv G0) as [_ [_ Hseats]].
  destruct (@assign_spec room (sid socket) Hseats) as [_ [Htaken [Hwatch Hrest]]].
  intros seat holder H.
  destruct (Side_eq_dec
              (first_free_seat (players room) (playerCount (settings room)))
              spectator) as [Hsp|Hsp].
  - now rewrite (Hwatch Hsp).
  - destruct (Side_eq_dec seat
                (first_free_seat (players room) (playerCount (settings room))))
      as [->|Hne].
    + destruct (Htaken Hsp) as [Hfree _]. congruence.
    + now rewrite (Hrest seat Hne).
Qed.

Lemma socket_join_In (socket : Socket) (roomId : string) :
  In roomId (socket_join socket roomId).
Proof.
  unfold socket_join.
  destruct (existsb (String.eqb roomId) (in_rooms socket)) eqn:E.
  - apply existsb_exists in E. destruct E as [r [Hin Hr]].
    apply String.eqb_eq in Hr. now subst r.
  - apply in_or_app. right. now left.
Qed.

Lemma nobody_in_false (others : list Socket) (socket : Socket)
      (roomId : string) :
  In socket others -> In roomId (in_rooms socket) ->
  nobody_in others roomId = false.
Proof.
  intros Hs Hr. unfold nobody_in. apply negb_false_iff.
  apply existsb_exists. exists socket. split; [exact Hs|].
  apply existsb_exists. exists roomId. split; [exact Hr|].
  apply String.eqb_refl.
Qed.

(** Every connected socket of a reachable state is bound as its data
    says. *)
Lemma reachable_bound (s : Server) :
  reachable s -> Forall (bound_ok (rooms s)) (sockets s).
Proof.
  induction 1 as [|s ev s' out R IH Hev Hstep].
  - constructor.
  - destruct (reachable_inv R) as [Hrooms _].
    rewrite Forall_forall in IH.
    assert (Kept : forall m, seats_kept (rooms s) m ->
                             Forall (bound_ok m) (sockets s)).
    { intros m K. apply Forall_forall. intros sk Hsk.
      eapply bound_ok_kept; eauto. }
    destruct ev as [body first draws|id|id roomId|id roomId|id roomId x y
                    |id roomId|id]; simpl in Hstep; unfold on_socket in Hstep.
    + unfold create_room in Hstep.
      destruct (retry (rooms s) first draws) as [roomId|] eqn:T;
        [|discriminate].
      injection Hstep as <- _. simpl. apply Kept.
      destruct (retry_spec _ _ _ T) as [_ [_ [_ [_ Hnew]]]].
      apply seats_kept_set. intros room G. unfold JsMap.has in Hnew.
      rewrite G in Hnew. discriminate.
    + destruct (find_socket (sockets s) id); injection Hstep as <- _.
      * apply Kept, seats_kept_refl.
      * simpl. apply Forall_app. split; [apply Kept, seats_kept_refl|].
        constructor; [|constructor]. intros roomId side Hr. discriminate Hr.
    + destruct (find_socket (sockets s) id) as [socket|] eqn:F;
        [|injection Hstep as <- _; apply Kept, seats_kept_refl].
      pose proof (@join_room_seats_kept (rooms s) socket roomId Hrooms) as K.
      destruct (String.eqb roomId EmptyString) eqn:E.
      { unfold join_room in Hstep, K. rewrite E in Hstep, K.
        injection Hstep as <- _. simpl. unfold put_socket.
        apply Forall_forall. intros sk Hsk. apply in_map_iff in Hsk.
        destruct Hsk as [sk0 [<- Hin]].
        apply find_socket_In in F. destruct F as [Hf _].
        destruct (String.eqb (sid sk0) (sid socket)); auto. }
      apply String.eqb_neq in E.
      destruct (@join_room_rooms (rooms s) socket roomId E)
        as [room0 [room1 [Hroom0 [Hroom1 L]]]].
      pose proof (@join_room_existing (rooms s) socket roomId) as Jex.
      destruct (join_room (rooms s) socket roomId) as [[rs socket'] o] eqn:J.
      simpl in K, L. injection Hstep as <- _. simpl.
      unfold put_socket. apply Forall_forall. intros sk Hsk.
      apply in_map_iff in Hsk. destruct Hsk as [sk0 [<- Hin]].
      destruct (String.eqb (sid sk0) (sid socket')) eqn:Esk;
        [|eapply bound_ok_kept; eauto].
      (* the joining socket itself *)
      assert (Hshape :
        sid socket' = sid socket /\
        data_roomId socket' = Some roomId /\
        data_side socket' = Some (snd (assign room0 (sid socket))) /\
        in_rooms socket' = socket_join socket roomId).
      { unfold join_room in J.
        destruct (String.eqb roomId EmptyString) eqn:E';
          [apply String.eqb_eq in E'; contradiction|].
        unfold JsMap.has in J.
        destruct Hroom0 as [G0|[G0 ->]]; rewrite G0 in J; simpl in J.
        - rewrite G0 in J.
          destruct (assign room0 (sid socket)) as [ps sd].
          injection J as _ <- _. repeat split.
        - rewrite get_set_same in J.
          destruct (assign default_room (sid socket)) as [ps sd].
          injection J as _ <- _. repeat split. }
      destruct Hshape as [Hsid [Hdr [Hds Hin']]].
      intros roomId' side Hr Hs' Hp.
      rewrite Hdr in Hr. injection Hr as <-.
      rewrite Hds in Hs'. injection Hs' as <-.
      split; [rewrite Hin'; apply socket_join_In|].
      exists room1. split; [rewrite L, String.eqb_refl; reflexivity|].
      subst room1. simpl. rewrite Hsid.
      assert (Hseats : seats_ok room0).
      { destruct Hroom0 as [G0|[_ ->]].
        - now destruct (values_get _ _ Hrooms G0) as [_ [_ Hs]].
        - now destruct room_inv_default as [_ [_ Hs]]. }
      destruct (@assign_spec room0 (sid socket) Hseats) as [Hside [Htaken _]].
      rewrite Hside in Hp |- *. now destruct (Htaken Hp).
    + destruct (find_socket (sockets s) id); injection Hstep as <- _;
        apply Kept, seats_kept_refl.
    + destruct (find_socket (sockets s) id) as [socket|];
        [|injection Hstep as <- _; apply Kept, seats_kept_refl].
      destruct (place_piece (rooms s) socket roomId x y) as [[rs o]| |] eqn:P;
        try discriminate.
      injection Hstep as <- _. simpl. apply Kept.
      eapply place_piece_seats_kept; eauto.
    + destruct (find_socket (sockets s) id) as [socket|];
        [|injection Hstep as <- _; apply Kept, seats_kept_refl].
      unfold reset_game in Hstep.
      destruct (JsMap.get (rooms s) roomId) as [room0|] eqn:G0;
        injection Hstep as <- _; simpl; apply Kept;
        [|apply seats_kept_refl].
      apply seats_kept_set. intros room G. rewrite G0 in G.
      injection G as <-. auto.
    + destruct (find_socket (sockets s) id) as [socket|] eqn:F;
        [|injection Hstep as <- _; apply Kept, seats_kept_refl].
      apply find_socket_In in F. destruct F as [_ Fid].
      assert (Hothers : forall sk, In sk (drop_socket (sockets s) id) ->
                                   In sk (sockets s) /\ sid sk <> sid socket).
      { intros sk Hsk. apply filter_In in Hsk. destruct Hsk as [Hin Hne].
        split; [exact Hin|]. apply negb_true_iff in Hne.
        apply String.eqb_neq in Hne. congruence. }
      unfold disconnect in Hstep.
      assert (Same : Forall (bound_ok (rooms s)) (drop_socket (sockets s) id)).
      { apply Forall_forall. intros sk Hsk. apply IH.
        now destruct (Hothers sk Hsk). }
      destruct (data_roomId socket) as [roomId|];
        [|injection Hstep as <- _; exact Same].
      destruct (String.eqb roomId EmptyString);
        [injection Hstep as <- _; exact Same|].
      destruct (JsMap.get (rooms s) roomId) as [room0|] eqn:G0;
        [|injection Hstep as <- _; exact Same].
      injection Hstep as <- _. simpl.
      apply Forall_forall. intros sk Hsk.
      destruct (Hothers sk Hsk) as [Hin Hne].
      intros roomId' side Hr Hs' Hp.
      destruct (IH sk Hin roomId' side Hr Hs' Hp) as [Hjoined [room [G O]]].
      split; [exact Hjoined|].
      destruct (String.eqb roomId roomId') eqn:K.
      * apply String.eqb_eq in K. subst roomId'.
        rewrite (@nobody_in_false _ sk roomId Hsk Hjoined).
        rewrite G0 in G. injection G as ->.
        eexists. split; [apply get_set_same|]. simpl.
        destruct side; simpl in *; try contradiction;
          now apply vacate_other.
      * exists room. split; [|exact O].
        destruct (nobody_in (drop_socket (sockets s) id) roomId).
        -- now rewrite get_after_delete, get_after_set, K.
        -- now rewrite get_after_set, K.
Qed.

(** X18.  A seat is never taken from a connected player: in every
    reachable state, a connected socket whose [socket.data] names a
    room and a playing side has joined that room, the room is live,
    and the socket is the occupant of that seat. *)
Theorem seated_socket_keeps_seat
        (s : Server) (id : string) (socket : Socket)
        (roomId : string) (side : Side) :
  reachable s ->
  find_socket (sockets s) id = Some socket ->
  data_roomId socket = Some roomId ->
  data_side socket = Some side ->
  side <> spectator ->
  In roomId (in_rooms socket) /\
  exists room,
    JsMap.get (rooms s) roomId = Some room /\
    occupant (players room) side = Some id.
Proof.
  intros R F Hr Hs Hp.
  pose proof (reachable_bound R) as B. rewrite Forall_forall in B.
  apply find_socket_In in F. destruct F as [Hin <-].
  exact (B socket Hin roomId side Hr Hs Hp).
Qed.

Lemma seated_socket_keeps_seat_witness :
  In code (in_rooms (socket_of won "sock-b")) /\
  exists room,
    JsMap.get (rooms won) code = Some room /\
    occupant (players room) white = Some "sock-b".
Proof.
  apply (@seated_socket_keeps_seat won "sock-b" (socket_of won "sock-b")
           code white).
  - exact reachable_won.
  - vm_compute. reflexivity.
  - vm_compute. reflexivity.
  - vm_compute. reflexivity.
  - discriminate.
Defined.
